(** * MobileDev storefront: data gateway, catalog aggregation and stores

    A shallow embedding of the data layer of the mobile storefront:
    - [src/services/api.js]: the remote data gateway
      ([getProductsByCategory], [mockLogin]);
    - [src/components/CategoryProductList.js]: the catalog aggregator
      ([loadProducts]) and the view it selects;
    - [src/store/authSlice.js] and [src/store/productSlice.js]: the reducers
      of the session and product stores, and the two thunks of the latter;
    - [src/screens/ProductDetailsScreen.js], [src/screens/LoginScreen.js],
      [src/screens/SettingsScreen.js] and [src/navigation/AppNavigator.js]:
      the handlers that call the gateway and dispatch to the stores.

    Asynchronous functions are written in a small state-and-exception monad:
    an [await] is a bind, a rejected promise is a thrown completion, and the
    outside world (the remote API, the console, the state hooks of the
    component) is an explicit environment. *)

From Stdlib Require Import ZArith List String Bool Lia QArith_base.
From stdpp Require Import gmap strings list pretty.
Import ListNotations.

Close Scope Q_scope.
Local Open Scope string_scope.
Local Open Scope Z_scope.
Local Open Scope list_scope.

(** ** Data model *)

(** A product as the remote API serves it
    ([id, title, description, price, discountPercentage, thumbnail, images]).
    The two decimal fields are carried as rationals; no operation below
    computes with them. *)
Record Product : Type := {
  id : Z;
  title : string;
  description : string;
  price : Q;
  discountPercentage : Q;
  thumbnail : string;
  images : list string
}.

(** ** The JavaScript runtime pieces the code relies on *)
Module Js.

(** The body of a failed HTTP response, as axios attaches it to the error
    it rejects with ([error.response.data]). *)
Record ErrResponse : Type := { status : Z; data : string }.

(** A thrown value: an [Error] with its [message]; axios errors also carry
    the [response] when the server answered. *)
Record Error : Type := { message : string; response : option ErrResponse }.

(** [new Error(msg)] *)
Definition new_Error (msg : string) : Error :=
  {| message := msg; response := None |}.

(** Truthiness of a string: only the empty string is falsy. *)
Definition truthy (s : string) : bool :=
  match s with
  | EmptyString => false
  | String _ _ => true
  end.

(** [a || b] on strings. *)
Definition or (a b : string) : string := if truthy a then a else b.

(** [x?.data || b] where [x] may be undefined. *)
Definition or_undef (a : option string) (b : string) : string :=
  match a with
  | Some s => or s b
  | None => b
  end.

(** The result of running a piece of code: it completes normally with a
    value or abruptly with a thrown error. *)
Inductive Completion (A : Type) : Type :=
| Normal (a : A)
| Throw (e : Error).
Arguments Normal {A} a.
Arguments Throw {A} e.

(** An argument of [console.error]. *)
Inductive LogArg : Type :=
| LStr (s : string)
| LErr (e : Error).

(** The environment of a run: the remote world, the console output so far
    and the state held by the user interface. *)
Record Env (World UI : Type) : Type := {
  net : World;
  console : list (list LogArg);
  ui : UI
}.
Arguments net {World UI} _.
Arguments console {World UI} _.
Arguments ui {World UI} _.

Definition M (World UI A : Type) : Type :=
  Env World UI -> Completion A * Env World UI.

Section Monad.
Context {World UI : Type}.
Local Abbreviation M := (M World UI).

Definition ret {A} (a : A) : M A := fun env => (Normal a, env).

Definition bind {A B} (m : M A) (k : A -> M B) : M B :=
  fun env =>
    match m env with
    | (Normal a, env') => k a env'
    | (Throw e, env') => (Throw e, env')
    end.

Definition throw {A} (e : Error) : M A := fun env => (Throw e, env).

(** [try { m } catch (e) { h e }] *)
Definition try_catch {A} (m : M A) (h : Error -> M A) : M A :=
  fun env =>
    match m env with
    | (Normal a, env') => (Normal a, env')
    | (Throw e, env') => h e env'
    end.

(** [try { m } finally { f }]: [f] runs on both exits, and the
    completion of [m] stands unless [f] itself throws. *)
Definition try_finally {A} (m : M A) (f : M unit) : M A :=
  fun env =>
    match m env with
    | (c, env') =>
        match f env' with
        | (Normal _, env'') => (c, env'')
        | (Throw e, env'') => (Throw e, env'')
        end
    end.

(** [console.error(...args)] *)
Definition console_error (args : list LogArg) : M unit :=
  fun env =>
    (Normal tt,
     {| net := net env; console := console env ++ [args]; ui := ui env |}).

(** A state hook setter, or any other update of the interface state. *)
Definition modify_ui (f : UI -> UI) : M unit :=
  fun env =>
    (Normal tt,
     {| net := net env; console := console env; ui := f (ui env) |}).
End Monad.

Declare Scope js_scope.
Delimit Scope js_scope with js.
Notation "x ← y ; z" := (bind y (fun x => z))
  (at level 20, y at level 100, z at level 200, only parsing) : js_scope.
Notation "x ;; z" := (bind x (fun _ => z))
  (at level 100, z at level 200, only parsing, right associativity) : js_scope.

(** [for (const x of xs) { acc = body(acc, x) }], with the variable the
    loop reassigns threaded as an accumulator. *)
Fixpoint for_of {World UI A X} (xs : list X) (acc : A)
    (body : A -> X -> M World UI A) : M World UI A :=
  match xs with
  | [] => ret acc
  | x :: xs' => bind (body acc x) (fun acc' => for_of xs' acc' body)
  end.

(** *** Plain objects used as maps

    Reading [obj[key]] on a plain object finds the names every object
    inherits from [Object.prototype] as well as its own properties.  These
    are the names the language puts there; all of them hold a function,
    but for [__proto__], an accessor whose getter returns the prototype and
    whose setter replaces it. *)
Definition Object_prototype_names : list string :=
  ["constructor"; "__defineGetter__"; "__defineSetter__"; "hasOwnProperty";
   "__lookupGetter__"; "__lookupSetter__"; "isPrototypeOf";
   "propertyIsEnumerable"; "toString"; "valueOf"; "__proto__";
   "toLocaleString"].

Definition inherited (key : string) : bool :=
  existsb (String.eqb key) Object_prototype_names.

(** *** [Map]

    A [Map] is its list of entries in insertion order.  [set] on a key
    already present replaces the value where the entry stands; a new key
    is appended (ECMAScript, Map.prototype.set). *)
Section Map.
Context {V : Type}.

Fixpoint Map_set (k : Z) (v : V) (m : list (Z * V)) : list (Z * V) :=
  match m with
  | [] => [(k, v)]
  | (k', v') :: m' =>
      if (k' =? k)%Z then (k', v) :: m' else (k', v') :: Map_set k v m'
  end.

(** [new Map(entries)]: every entry is [set], in order. *)
Definition Map_new (entries : list (Z * V)) : list (Z * V) :=
  fold_left (fun m e => Map_set (fst e) (snd e) m) entries [].

(** [m.get(k)] *)
Definition Map_get (k : Z) (m : list (Z * V)) : option V :=
  option_map snd (List.find (fun e => (fst e =? k)%Z) m).

(** [m.keys()] and [m.values()], as arrays. *)
Definition Map_keys (m : list (Z * V)) : list Z := map fst m.
Definition Map_values (m : list (Z * V)) : list V := map snd m.
End Map.

End Js.

(** ** [src/services/api.js] *)
Module Api.
Import Js.
Local Open Scope js_scope.

(** The body of a category response: [{ products: [...] }].  The remote
    API is taken at its contract: a response inside 2xx carries a
    [products] array of products. *)
Record Body : Type := { products : list Product }.

(** A successful axios response ([response.data]). *)
Record Response : Type := { data : Body }.

(** What [api.get] settles to. *)
Inductive Outcome : Type :=
| Resolved (r : Response)
| Rejected (e : Error).

Section Gateway.
Context {World UI : Type}.
(** The axios instance: [api.get url] against the remote world.  It
    rejects on a transport error, on the 10 s timeout and on a status
    outside 2xx. *)
Variable api_get : string -> World -> Outcome * World.

Definition get (url : string) : M World UI Response :=
  fun env =>
    match api_get url (net env) with
    | (Resolved r, w) =>
        (Normal r, {| net := w; console := console env; ui := ui env |})
    | (Rejected e, w) =>
        (Throw e, {| net := w; console := console env; ui := ui env |})
    end.

Definition category_url (category : string) : string :=
  "products/category/" +:+ category.

Definition DataUnavailable : Error :=
  new_Error "Não foi possível carregar os produtos. Tente novamente mais tarde.".

Definition getProductsByCategory (category : string)
  : M World UI (list Product) :=
  try_catch
    (response ← get (category_url category);
     ret (products (data response)))
    (fun error =>
       console_error
         [LStr ("Erro ao buscar produtos da categoria " +:+ category +:+ ":");
          LStr (or_undef (option_map Js.data (response error)) (message error))];;
       throw DataUnavailable).
End Gateway.

(** The object a successful login resolves with. *)
Record User : Type := { username : string; name : string }.
Record LoginResult : Type := { success : bool; user : User }.

Definition InvalidCredentials : Error :=
  new_Error "Usuário ou senha inválidos.".

(** [mockLogin]: the value the returned promise settles to once the
    one-second timer fires. *)
Definition mockLogin (username password : string) : Completion LoginResult :=
  if String.eqb username "user" && String.eqb password "password" then
    Normal {| success := true;
              user := {| username := "user"; name := "Usuário Teste" |} |}
  else
    Throw InvalidCredentials.

End Api.

(** ** [src/components/CategoryProductList.js] *)
Module CategoryProductList.
Import Js.
Local Open Scope js_scope.

(** The four [useState] cells of the component. *)
Record State : Type := {
  products : list Product;
  isLoading : bool;
  error : option string;
  refreshing : bool
}.

(** The state at mount: [useState([])], [useState(true)],
    [useState(null)], [useState(false)]. *)
Definition initialState : State :=
  {| products := []; isLoading := true; error := None; refreshing := false |}.

(** [Array.from(new Map(allProducts.map(item => [item.id, item])).values())] *)
Definition uniqueProducts (allProducts : list Product) : list Product :=
  Map_values (Map_new (map (fun item => (id item, item)) allProducts)).

Section Component.
Context {World : Type}.
Variable api_get : string -> World -> Api.Outcome * World.

Definition setProducts (v : list Product) : M World State unit :=
  modify_ui (fun st =>
    {| products := v; isLoading := isLoading st;
       error := error st; refreshing := refreshing st |}).

Definition setIsLoading (v : bool) : M World State unit :=
  modify_ui (fun st =>
    {| products := products st; isLoading := v;
       error := error st; refreshing := refreshing st |}).

Definition setError (v : option string) : M World State unit :=
  modify_ui (fun st =>
    {| products := products st; isLoading := isLoading st;
       error := v; refreshing := refreshing st |}).

Definition setRefreshing (v : bool) : M World State unit :=
  modify_ui (fun st =>
    {| products := products st; isLoading := isLoading st;
       error := error st; refreshing := v |}).

(** The body of the [for ... of] loop: one awaited fetch, appended to
    [allProducts]. *)
Definition appendCategory (allProducts : list Product) (category : string)
  : M World State (list Product) :=
  categoryProducts ← Api.getProductsByCategory api_get category;
  ret (allProducts ++ categoryProducts)%list.

Definition loadProducts (categories : list string) : M World State unit :=
  setIsLoading true;;
  setError None;;
  try_finally
    (try_catch
       (allProducts ← for_of categories [] appendCategory;
        setProducts (uniqueProducts allProducts))
       (fun err =>
          console_error [LStr "Erro ao carregar produtos:"; LErr err];;
          setError (Some (or (message err) "Falha ao carregar os produtos."))))
    (setIsLoading false;;
     setRefreshing false).

Definition onRefresh (categories : list string) : M World State unit :=
  setRefreshing true;;
  loadProducts categories.
End Component.

(** What the component returns for a state: the spinner, the error
    message with its retry button, the empty message, or the grid. *)
Inductive View : Type :=
| LoadingView
| ErrorView (message : string)
| EmptyView
| ListView (data : list Product) (refreshing : bool).

(** [if (error)]: [null] and the empty string are falsy. *)
Definition error_truthy (e : option string) : bool :=
  match e with
  | Some s => truthy s
  | None => false
  end.

Definition render (st : State) : View :=
  if isLoading st && negb (refreshing st) then LoadingView
  else if error_truthy (error st) then ErrorView (default "" (error st))
  else if (length (products st) =? 0)%nat && negb (isLoading st) then EmptyView
  else ListView (products st) (refreshing st).

End CategoryProductList.

(** ** [src/store/authSlice.js] *)
Module AuthSlice.

Record State : Type := {
  isLoggedIn : bool;
  user : option Api.User
}.

Definition initialState : State := {| isLoggedIn := false; user := None |}.

(** [loginSuccess]; the argument is [action.payload.user]. *)
Definition loginSuccess (state : State) (payload_user : Api.User) : State :=
  {| isLoggedIn := true; user := Some payload_user |}.

Definition logout (state : State) : State :=
  {| isLoggedIn := false; user := None |}.

Inductive Action : Type :=
| LoginSuccess (payload_user : Api.User)
| Logout.

Definition reducer (state : State) (action : Action) : State :=
  match action with
  | LoginSuccess u => loginSuccess state u
  | Logout => logout state
  end.

End AuthSlice.

(** ** [src/store/productSlice.js] *)
Module ProductSlice.

Inductive Status : Type := idle | loading | succeeded | failed.

(** The state kept per category slug. *)
Module Category.
Record State : Type := {
  items : list Product;
  status : Status;
  error : option string
}.
End Category.

Record State : Type := {
  categories : gmap string Category.State;
  currentProduct : option Product;
  status : Status;
  error : option string
}.

Definition initialState : State :=
  {| categories := ∅; currentProduct := None; status := idle; error := None |}.

(** The store with [v] as own property [category] of [state.categories]. *)
Definition set_category (category : string) (v : Category.State)
    (state : State) : State :=
  {| categories := <[category := v]> (categories state);
     currentProduct := currentProduct state;
     status := status state;
     error := error state |}.

(** The actions of the two thunks.  [category] is [action.meta.arg.category]
    (or [action.payload.category] when fulfilled); the payload of a
    rejection is the message passed to [rejectWithValue]. *)
Inductive Action : Type :=
| FetchProductsByCategory_pending (category : string)
| FetchProductsByCategory_fulfilled (category : string) (products : list Product)
| FetchProductsByCategory_rejected (category : string) (payload : option string)
| FetchProductDetails_pending
| FetchProductDetails_fulfilled (payload : Product)
| FetchProductDetails_rejected (payload : option string).

(** What [state.categories[category]] reads on the draft: the entry the
    object owns under that name; otherwise, for a name of
    [Object.prototype], the function or object inherited there, which is
    truthy and is no part of the store; otherwise [undefined].
    [categories] holds the own properties. *)
Inductive Read : Type :=
| Own (c : Category.State)
| Inherited
| Undefined.

Definition read (state : State) (category : string) : Read :=
  match categories state !! category with
  | Some c => Own c
  | None => if Js.inherited category then Inherited else Undefined
  end.

(** The error of Immer when the prototype of a draft is set (the text of
    its development build). *)
Definition ImmerSetPrototypeOf : Js.Error :=
  Js.new_Error "[Immer] Object.setPrototypeOf() cannot be used on an Immer draft".

(** [state.categories[category] = v] on the draft: an own property is
    written, but for [__proto__], where the assignment runs the inherited
    setter and Immer refuses it. *)
Definition assign_category (category : string) (v : Category.State)
    (state : State) : Js.Completion State :=
  if String.eqb category "__proto__" then Js.Throw ImmerSetPrototypeOf
  else Js.Normal (set_category category v state).

(** The case reducers, as [createSlice] runs them on a draft of the
    state.  Where the test [!state.categories[category]] meets an inherited
    name, the writes of the [else] branch land on the inherited object and
    the store is left as it is. *)
Definition caseReducer (state : State) (action : Action) : Js.Completion State :=
  match action with
  | FetchProductsByCategory_pending category =>
      match read state category with
      | Undefined =>
          assign_category category
            {| Category.items := []; Category.status := loading;
               Category.error := None |} state
      | Own c =>
          Js.Normal
            (set_category category
               {| Category.items := Category.items c; Category.status := loading;
                  Category.error := Category.error c |} state)
      | Inherited => Js.Normal state
      end
  | FetchProductsByCategory_fulfilled category products =>
      assign_category category
        {| Category.items := products; Category.status := succeeded;
           Category.error := None |} state
  | FetchProductsByCategory_rejected category payload =>
      match read state category with
      | Undefined =>
          assign_category category
            {| Category.items := []; Category.status := failed;
               Category.error := payload |} state
      | Own c =>
          Js.Normal
            (set_category category
               {| Category.items := Category.items c; Category.status := failed;
                  Category.error := payload |} state)
      | Inherited => Js.Normal state
      end
  | FetchProductDetails_pending =>
      Js.Normal
        {| categories := categories state; currentProduct := currentProduct state;
           status := loading; error := None |}
  | FetchProductDetails_fulfilled payload =>
      Js.Normal
        {| categories := categories state; currentProduct := Some payload;
           status := succeeded; error := error state |}
  | FetchProductDetails_rejected payload =>
      Js.Normal
        {| categories := categories state; currentProduct := currentProduct state;
           status := failed; error := payload |}
  end.

(** The slice reducer as the store applies it: the state of the store
    after the action.  When the case reducer throws, so does the dispatch,
    and the store keeps the state it had. *)
Definition reducer (state : State) (action : Action) : State :=
  match caseReducer state action with
  | Js.Normal state' => state'
  | Js.Throw _ => state
  end.

End ProductSlice.

(** ** Notions used to state the properties *)
Module Spec.

Section Network.
Context {World : Type}.
Variable api_get : string -> World -> Api.Outcome * World.

(** The product lists the remote API answers with when the categories
    are requested one after the other from world [w], or [None] as soon
    as one of the requests is rejected. *)
Fixpoint fetchAll (categories : list string) (w : World)
  : option (list (list Product)) :=
  match categories with
  | [] => Some []
  | c :: cs =>
      match api_get (Api.category_url c) w with
      | (Api.Resolved r, w') =>
          option_map (cons (Api.products (Api.data r))) (fetchAll cs w')
      | (Api.Rejected _, _) => None
      end
  end.
End Network.

(** The identifiers of a list with every repetition after the first
    occurrence removed. *)
Fixpoint keep_first (l : list Z) : list Z :=
  match l with
  | [] => []
  | x :: l' => x :: List.filter (fun y => negb (y =? x)%Z) (keep_first l')
  end.

(** The last product of [l] that carries identifier [i]. *)
Definition last_with_id (i : Z) (l : list Product) : option Product :=
  List.find (fun p => (id p =? i)%Z) (rev l).

(** The position of the first occurrence of [i] in [l] ([length l] when
    there is none). *)
Fixpoint index_of (i : Z) (l : list Z) : nat :=
  match l with
  | [] => O
  | x :: l' => if (x =? i)%Z then O else S (index_of i l')
  end.

End Spec.

(** ** A small remote world to run the code against *)
Module Demo.

Definition product (i : Z) (t : string) : Product :=
  {| id := i; title := t; description := ""; price := Qmake 10 1;
     discountPercentage := Qmake 0 1; thumbnail := ""; images := [] |}.

Definition respond (l : list Product) : Api.Outcome :=
  Api.Resolved {| Api.data := {| Api.products := l |} |}.

Definition NetworkError : Js.Error :=
  {| Js.message := "Network Error"; Js.response := None |}.

Definition NotFound : Js.Error :=
  {| Js.message := "Request failed with status code 404";
     Js.response := Some {| Js.status := 404; Js.data := "Not Found" |} |}.

(** The world is the number of requests served so far.  Categories [a]
    and [b] share product 7 under two titles, [empty] has no product,
    [mens-shoes] is unreachable and every other path is unknown. *)
Definition api_get (url : string) (w : nat) : Api.Outcome * nat :=
  (if String.eqb url "products/category/a" then
     respond [product 7 "Shirt (a)"; product 8 "Belt"]
   else if String.eqb url "products/category/b" then
     respond [product 9 "Cap"; product 7 "Shirt (b)"]
   else if String.eqb url "products/category/mens-shirts" then
     respond [product 83 "Blue shirt"]
   else if String.eqb url "products/category/empty" then
     respond []
   else if String.eqb url "products/category/mens-shoes" then
     Api.Rejected NetworkError
   else
     Api.Rejected NotFound,
   S w).

Definition env0 : Js.Env nat CategoryProductList.State :=
  {| Js.net := O; Js.console := [];
     Js.ui := CategoryProductList.initialState |}.

Definition category_loaded : ProductSlice.State :=
  ProductSlice.reducer ProductSlice.initialState
    (ProductSlice.FetchProductsByCategory_fulfilled "a" [product 7 "Shirt (a)"]).

End Demo.

(** ** More of the runtime: closures, settled promises, alerts *)
Module JsLib.
Import Js.

Section Ops.
Context {World UI : Type}.

(** The values a handler reads from the render it was created in. *)
Definition get_ui : M World UI UI := fun env => (Normal (ui env), env).

(** [await p] for a promise that settles to [c] without touching the
    environment. *)
Definition settle {A} (c : Completion A) : M World UI A := fun env => (c, env).
End Ops.

(** [String(n)] and the interpolation of an integer in a template string:
    the decimal digits, after a dash when negative (what JavaScript prints
    for the integers a number holds exactly, which product identifiers
    are). *)
Definition String_of_Z (n : Z) : string := pretty n.

(** A dialog opened with [Alert.alert(title, message)]. *)
Record Alert : Type := { alert_title : string; alert_message : string }.

End JsLib.

(** ** [src/services/api.js], the product endpoint *)
Module ProductApi.
Import Js.
Local Open Scope js_scope.

(** What [api.get] settles to on a product path; inside 2xx the body
    ([response.data]) is the product, as the remote API documents it. *)
Inductive Outcome : Type :=
| Resolved (data : Product)
| Rejected (e : Error).

Section Gateway.
Context {World UI : Type}.
Variable api_get : string -> World -> Outcome * World.

Definition get (url : string) : M World UI Product :=
  fun env =>
    match api_get url (net env) with
    | (Resolved d, w) =>
        (Normal d, {| net := w; console := console env; ui := ui env |})
    | (Rejected e, w) =>
        (Throw e, {| net := w; console := console env; ui := ui env |})
    end.

Definition product_url (id : Z) : string :=
  "products/" +:+ JsLib.String_of_Z id.

Definition DetailsUnavailable : Error :=
  new_Error "Não foi possível carregar os detalhes do produto. Tente novamente mais tarde.".

Definition getProductDetails (id : Z) : M World UI Product :=
  try_catch
    (response_data ← get (product_url id);
     ret response_data)
    (fun error =>
       console_error
         [LStr ("Erro ao buscar detalhes do produto " +:+ JsLib.String_of_Z id +:+ ":");
          LStr (or_undef (option_map Js.data (response error)) (message error))];;
       throw DetailsUnavailable).
End Gateway.

End ProductApi.

(** ** [src/components/CategoryProductList.js], the list keys *)
Module ListKeys.

(** [keyExtractor={(item) => String(item.id)}] *)
Definition keyExtractor (item : Product) : string := JsLib.String_of_Z (id item).

End ListKeys.

(** ** [src/store/productSlice.js], the two thunks *)
Module ProductThunks.
Import Js ProductSlice.
Local Open Scope js_scope.

(** What a payload creator hands back to [createAsyncThunk]: the value it
    returns, or the value given to [rejectWithValue]. *)
Inductive ThunkResult (A : Type) : Type :=
| Fulfill (a : A)
| RejectWithValue (v : string).
Arguments Fulfill {A} a.
Arguments RejectWithValue {A} v.

Section Thunks.
Context {World : Type}.
Variable api_get : string -> World -> Api.Outcome * World.
Variable api_get_product : string -> World -> ProductApi.Outcome * World.

(** [dispatch(action)] on a store holding the product slice: the store
    takes the state the case reducer returns, and an error it throws comes
    out of the dispatch. *)
Definition dispatch (action : Action) : M World State unit :=
  fun env =>
    match caseReducer (ui env) action with
    | Normal state' =>
        (Normal tt, {| net := net env; console := console env; ui := state' |})
    | Throw e => (Throw e, env)
    end.

(** The payload creator of [fetchProductsByCategory]. *)
Definition fetchProductsByCategory_payload (category : string)
  : M World State (ThunkResult (string * list Product)) :=
  try_catch
    (products ← Api.getProductsByCategory api_get category;
     ret (Fulfill (category, products)))
    (fun error => ret (RejectWithValue (message error))).

(** [dispatch(fetchProductsByCategory({ category }))]: the pending action,
    the payload creator, then the fulfilled or the rejected action. *)
Definition fetchProductsByCategory (category : string) : M World State unit :=
  dispatch (FetchProductsByCategory_pending category);;
  r ← fetchProductsByCategory_payload category;
  match r with
  | Fulfill (c, products) => dispatch (FetchProductsByCategory_fulfilled c products)
  | RejectWithValue v => dispatch (FetchProductsByCategory_rejected category (Some v))
  end.

(** The payload creator of [fetchProductDetails]. *)
Definition fetchProductDetails_payload (productId : Z)
  : M World State (ThunkResult Product) :=
  try_catch
    (product ← ProductApi.getProductDetails api_get_product productId;
     ret (Fulfill product))
    (fun error => ret (RejectWithValue (message error))).

Definition fetchProductDetails (productId : Z) : M World State unit :=
  dispatch FetchProductDetails_pending;;
  r ← fetchProductDetails_payload productId;
  match r with
  | Fulfill product => dispatch (FetchProductDetails_fulfilled product)
  | RejectWithValue v => dispatch (FetchProductDetails_rejected (Some v))
  end.
End Thunks.

(** The store after a list of actions, oldest first. *)
Definition run (state : State) (actions : list Action) : State :=
  fold_left reducer actions state.

End ProductThunks.

(** ** [src/screens/ProductDetailsScreen.js] *)
Module ProductDetailsScreen.
Import Js JsLib.
Local Open Scope js_scope.

(** The three [useState] cells of the screen. *)
Record State : Type := {
  product : option Product;
  isLoading : bool;
  error : option string
}.

Definition initialState : State :=
  {| product := None; isLoading := true; error := None |}.

(** The screen and the dialogs it has opened. *)
Record UI : Type := { cells : State; alerts : list Alert }.

Section Screen.
Context {World : Type}.
Variable api_get_product : string -> World -> ProductApi.Outcome * World.

Definition setProduct (v : option Product) : M World UI unit :=
  modify_ui (fun u =>
    {| cells := {| product := v; isLoading := isLoading (cells u);
                   error := error (cells u) |};
       alerts := alerts u |}).

Definition setIsLoading (v : bool) : M World UI unit :=
  modify_ui (fun u =>
    {| cells := {| product := product (cells u); isLoading := v;
                   error := error (cells u) |};
       alerts := alerts u |}).

Definition setError (v : option string) : M World UI unit :=
  modify_ui (fun u =>
    {| cells := {| product := product (cells u); isLoading := isLoading (cells u);
                   error := v |};
       alerts := alerts u |}).

Definition Alert_alert (title message : string) : M World UI unit :=
  modify_ui (fun u =>
    {| cells := cells u;
       alerts := alerts u ++ [{| alert_title := title; alert_message := message |}] |}).

Definition loadProductDetails (productId : Z) : M World UI unit :=
  setIsLoading true;;
  setError None;;
  try_finally
    (try_catch
       (data ← ProductApi.getProductDetails api_get_product productId;
        setProduct (Some data))
       (fun err =>
          console_error [LStr "Erro ao carregar detalhes do produto:"; LErr err];;
          setError (Some (or (message err)
                             "Não foi possível carregar os detalhes do produto."));;
          Alert_alert "Erro"
            (or (message err) "Não foi possível carregar os detalhes do produto.")))
    (setIsLoading false).
End Screen.

(** What the screen returns: the spinner, the message, or the layout of a
    product with its first image when it has one.  The two price texts of
    the layout are floating-point computations and are left out. *)
Inductive View : Type :=
| LoadingView
| ErrorView (message : string)
| DetailsView (product : Product) (mainImage : option string).

Definition render (st : State) : View :=
  if isLoading st then LoadingView
  else
    match product st with
    | Some p =>
        if CategoryProductList.error_truthy (error st)
        then ErrorView (default "" (error st))
        else DetailsView p (head (images p))
    | None =>
        ErrorView (if CategoryProductList.error_truthy (error st)
                   then default "" (error st)
                   else "Detalhes do produto não encontrados.")
    end.

End ProductDetailsScreen.

(** ** [src/navigation/AppNavigator.js] *)
Module AppNavigator.

Inductive Flow : Type := MainAppNavigator | AuthNavigator.

(** [isLoggedIn ? <MainAppNavigator /> : <AuthNavigator />] *)
Definition AppNavigator (auth : AuthSlice.State) : Flow :=
  if AuthSlice.isLoggedIn auth then MainAppNavigator else AuthNavigator.

End AppNavigator.

(** ** [src/screens/LoginScreen.js] *)
Module LoginScreen.
Import Js JsLib.
Local Open Scope js_scope.

(** The [useState] cells of the screen. *)
Record State : Type := {
  username : string;
  password : string;
  isLoading : bool;
  isUsernameValid : bool;
  isPasswordValid : bool;
  showPassword : bool;
  loginErrorMessage : string
}.

Definition initialState : State :=
  {| username := ""; password := ""; isLoading := false;
     isUsernameValid := true; isPasswordValid := true;
     showPassword := false; loginErrorMessage := "" |}.

(** The screen, the session store it dispatches to and the dialogs it has
    opened. *)
Record UI : Type := {
  screen : State;
  auth : AuthSlice.State;
  alerts : list Alert
}.

Section Screen.
Context {World : Type}.
(** [String.prototype.trim] *)
Variable trim : string -> string.

Definition set_screen (f : State -> State) : M World UI unit :=
  modify_ui (fun u => {| screen := f (screen u); auth := auth u; alerts := alerts u |}).

Definition setUsername (v : string) : M World UI unit :=
  set_screen (fun st =>
    {| username := v; password := password st; isLoading := isLoading st;
       isUsernameValid := isUsernameValid st; isPasswordValid := isPasswordValid st;
       showPassword := showPassword st; loginErrorMessage := loginErrorMessage st |}).

Definition setPassword (v : string) : M World UI unit :=
  set_screen (fun st =>
    {| username := username st; password := v; isLoading := isLoading st;
       isUsernameValid := isUsernameValid st; isPasswordValid := isPasswordValid st;
       showPassword := showPassword st; loginErrorMessage := loginErrorMessage st |}).

Definition setIsLoading (v : bool) : M World UI unit :=
  set_screen (fun st =>
    {| username := username st; password := password st; isLoading := v;
       isUsernameValid := isUsernameValid st; isPasswordValid := isPasswordValid st;
       showPassword := showPassword st; loginErrorMessage := loginErrorMessage st |}).

Definition setIsUsernameValid (v : bool) : M World UI unit :=
  set_screen (fun st =>
    {| username := username st; password := password st; isLoading := isLoading st;
       isUsernameValid := v; isPasswordValid := isPasswordValid st;
       showPassword := showPassword st; loginErrorMessage := loginErrorMessage st |}).

Definition setIsPasswordValid (v : bool) : M World UI unit :=
  set_screen (fun st =>
    {| username := username st; password := password st; isLoading := isLoading st;
       isUsernameValid := isUsernameValid st; isPasswordValid := v;
       showPassword := showPassword st; loginErrorMessage := loginErrorMessage st |}).

Definition setShowPassword (v : bool) : M World UI unit :=
  set_screen (fun st =>
    {| username := username st; password := password st; isLoading := isLoading st;
       isUsernameValid := isUsernameValid st; isPasswordValid := isPasswordValid st;
       showPassword := v; loginErrorMessage := loginErrorMessage st |}).

Definition setLoginErrorMessage (v : string) : M World UI unit :=
  set_screen (fun st =>
    {| username := username st; password := password st; isLoading := isLoading st;
       isUsernameValid := isUsernameValid st; isPasswordValid := isPasswordValid st;
       showPassword := showPassword st; loginErrorMessage := v |}).

Definition dispatch (action : AuthSlice.Action) : M World UI unit :=
  modify_ui (fun u =>
    {| screen := screen u; auth := AuthSlice.reducer (auth u) action;
       alerts := alerts u |}).

Definition Alert_alert (title message : string) : M World UI unit :=
  modify_ui (fun u =>
    {| screen := screen u; auth := auth u;
       alerts := alerts u ++ [{| alert_title := title; alert_message := message |}] |}).

(** [validateFields], on the [username] and [password] of the render the
    handler belongs to. *)
Definition validateFields (username password : string) : M World UI bool :=
  let valid := true in
  valid ← (if String.eqb (trim username) ""
           then setIsUsernameValid false;; ret false
           else setIsUsernameValid true;; ret valid);
  valid ← (if String.eqb (trim password) ""
           then setIsPasswordValid false;; ret false
           else setIsPasswordValid true;; ret valid);
  ret valid.

Definition handleLogin : M World UI unit :=
  u ← get_ui;
  let username := username (screen u) in
  let password := password (screen u) in
  setLoginErrorMessage "";;
  fieldsAreValid ← validateFields username password;
  if negb fieldsAreValid then
    Alert_alert "Atenção" "Por favor, preencha todos os campos obrigatórios."
  else
    setIsLoading true;;
    try_finally
      (try_catch
         (response ← settle (Api.mockLogin username password);
          if Api.success response then
            dispatch (AuthSlice.LoginSuccess (Api.user response))
          else
            setLoginErrorMessage "Usuário ou senha inválidos.")
         (fun error =>
            setLoginErrorMessage
              (or (message error) "Ocorreu um erro ao tentar fazer login.")))
      (setIsLoading false).

(** [onChangeText] of the user field. *)
Definition onChangeUsername (text : string) : M World UI unit :=
  u ← get_ui;
  setUsername text;;
  (if negb (isUsernameValid (screen u)) && negb (String.eqb (trim text) "")
   then setIsUsernameValid true else ret tt);;
  setLoginErrorMessage "".

(** [onChangeText] of the password field. *)
Definition onChangePassword (text : string) : M World UI unit :=
  u ← get_ui;
  setPassword text;;
  (if negb (isPasswordValid (screen u)) && negb (String.eqb (trim text) "")
   then setIsPasswordValid true else ret tt);;
  setLoginErrorMessage "".

(** [onBlur] of both fields. *)
Definition onBlur : M World UI unit :=
  u ← get_ui;
  _ ← validateFields (username (screen u)) (password (screen u));
  ret tt.
End Screen.

End LoginScreen.

(** ** [src/screens/SettingsScreen.js] *)
Module SettingsScreen.
Import Js JsLib.
Local Open Scope js_scope.

(** The session store the screen reads and dispatches to, and the dialogs
    it has opened. *)
Record UI : Type := { auth : AuthSlice.State; alerts : list Alert }.

(** [user?.name || 'João da Silva'] and [user?.username || '...']. *)
Definition userName (user : option Api.User) : string :=
  or_undef (option_map Api.name user) "João da Silva".

Definition userEmail (user : option Api.User) : string :=
  or_undef (option_map Api.username user) "joaodasilva@gmail.com".

Section Screen.
Context {World : Type}.

Definition dispatch (action : AuthSlice.Action) : M World UI unit :=
  modify_ui (fun u =>
    {| auth := AuthSlice.reducer (auth u) action; alerts := alerts u |}).

(** A button of a dialog: its text and what pressing it runs. *)
Record Button : Type := { text : string; onPress : option (M World UI unit) }.

(** [Alert.alert(title, message, buttons, { cancelable: true })]: the
    dialog opens, and the user presses the button at [answer] or, with
    [None], dismisses the dialog. *)
Definition Alert_alert (title message : string) (buttons : list Button)
    (answer : option nat) : M World UI unit :=
  modify_ui (fun u =>
    {| auth := auth u;
       alerts := alerts u ++ [{| alert_title := title; alert_message := message |}] |});;
  match answer with
  | Some i =>
      match nth_error buttons i with
      | Some b => match onPress b with Some m => m | None => ret tt end
      | None => ret tt
      end
  | None => ret tt
  end.

Definition handleLogout (answer : option nat) : M World UI unit :=
  Alert_alert "Sair" "Tem certeza que deseja sair?"
    [{| text := "Cancelar"; onPress := None |};
     {| text := "Sim"; onPress := Some (dispatch AuthSlice.Logout) |}]
    answer.
End Screen.

End SettingsScreen.

(** ** More of the demo world *)
Module Demo2.

(** Product 83 is served; every other product path is unknown. *)
Definition api_get_product (url : string) (w : nat) : ProductApi.Outcome * nat :=
  (if String.eqb url "products/83" then
     ProductApi.Resolved (Demo.product 83 "Blue shirt")
   else
     ProductApi.Rejected Demo.NotFound,
   S w).

Definition store0 : Js.Env nat ProductSlice.State :=
  {| Js.net := O; Js.console := []; Js.ui := ProductSlice.initialState |}.

Definition details0 : Js.Env nat ProductDetailsScreen.UI :=
  {| Js.net := O; Js.console := [];
     Js.ui := {| ProductDetailsScreen.cells := ProductDetailsScreen.initialState;
                 ProductDetailsScreen.alerts := [] |} |}.

(** A [trim] that only knows the space character. *)
Fixpoint trim_start (s : string) : string :=
  match s with
  | String (Ascii.Ascii false false false false false true false false) s' =>
      trim_start s'
  | _ => s
  end.

Definition trim (s : string) : string :=
  String.rev (trim_start (String.rev (trim_start s))).

Definition typed (u p : string) : Js.Env nat LoginScreen.UI :=
  {| Js.net := O; Js.console := [];
     Js.ui :=
       {| LoginScreen.screen :=
            {| LoginScreen.username := u; LoginScreen.password := p;
               LoginScreen.isLoading := false;
               LoginScreen.isUsernameValid := true;
               LoginScreen.isPasswordValid := true;
               LoginScreen.showPassword := false;
               LoginScreen.loginErrorMessage := "" |};
          LoginScreen.auth := AuthSlice.initialState;
          LoginScreen.alerts := [] |} |}.

Definition test_user : Api.User :=
  {| Api.username := "user"; Api.name := "Usuário Teste" |}.

Definition signed_in : Js.Env nat SettingsScreen.UI :=
  {| Js.net := O; Js.console := [];
     Js.ui :=
       {| SettingsScreen.auth :=
            {| AuthSlice.isLoggedIn := true; AuthSlice.user := Some test_user |};
          SettingsScreen.alerts := [] |} |}.

End Demo2.

(** ** Notions used to state the properties of the product store *)
Module StoreSpec.
Import ProductSlice.

(** The category an action of the category thunk is about. *)
Definition category_of (action : Action) : option string :=
  match action with
  | FetchProductsByCategory_pending c
  | FetchProductsByCategory_fulfilled c _
  | FetchProductsByCategory_rejected c _ => Some c
  | FetchProductDetails_pending
  | FetchProductDetails_fulfilled _
  | FetchProductDetails_rejected _ => None
  end.

(** A category entry is never [idle], and holds no error once
    [succeeded]. *)
Definition entry_ok (c : Category.State) : Prop :=
  Category.status c <> idle
  /\ (Category.status c = succeeded -> Category.error c = None).

End StoreSpec.

(** * Properties *)

(** ** Lists *)
Section ListFacts.
Context {A : Type}.

Lemma filter_twice (f g : A -> bool) (l : list A) :
  List.filter f (List.filter g l) = List.filter (fun x => g x && f x) l.
Proof.
  induction l as [|x l IH]; simpl; [reflexivity|].
  destruct (g x); simpl; [destruct (f x)|]; rewrite IH; reflexivity.
Qed.

Lemma find_last (f : A -> bool) (l : list A) (x : A) :
  List.find f (l ++ [x]) =
  match List.find f l with
  | Some y => Some y
  | None => if f x then Some x else None
  end.
Proof.
  induction l as [|y l IH]; simpl; [reflexivity|].
  destruct (f y); [reflexivity | exact IH].
Qed.

Lemma find_app (f : A -> bool) (l1 l2 : list A) :
  List.find f (l1 ++ l2) =
  match List.find f l1 with
  | Some y => Some y
  | None => List.find f l2
  end.
Proof.
  induction l1 as [|y l1 IH]; simpl; [reflexivity|].
  destruct (f y); [reflexivity | exact IH].
Qed.

Lemma find_map {B : Type} (g : A -> B) (f : B -> bool) (l : list A) :
  List.find f (map g l) = option_map g (List.find (fun x => f (g x)) l).
Proof.
  induction l as [|x l IH]; simpl; [reflexivity|].
  destruct (f (g x)); [reflexivity | exact IH].
Qed.
End ListFacts.

(** ** [Map] *)
Section MapFacts.
Import Js.
Context {V : Type}.
Implicit Types (m : list (Z * V)) (k : Z) (v : V).

(** [k] is none of [ks]. *)
Let fresh (ks : list Z) (k : Z) : bool := negb (existsb (Z.eqb k) ks).

Lemma fresh_false ks k : In k ks -> fresh ks k = false.
Proof.
  intros Hin. unfold fresh. apply negb_false_iff, existsb_exists.
  exists k. split; [exact Hin | apply Z.eqb_refl].
Qed.

Lemma fresh_true ks k : ~ In k ks -> fresh ks k = true.
Proof.
  intros Hnin. unfold fresh. apply negb_true_iff.
  destruct (existsb (Z.eqb k) ks) eqn:E; [|reflexivity].
  apply existsb_exists in E. destruct E as (y & Hy & Heq).
  apply Z.eqb_eq in Heq. subst y. contradiction.
Qed.

Lemma Map_set_keys_in k v m :
  In k (Map_keys m) -> Map_keys (Map_set k v m) = Map_keys m.
Proof.
  induction m as [|[k' v'] m IH]; simpl; [contradiction|].
  intros Hin. destruct (Z.eqb_spec k' k) as [->|Hne]; [reflexivity|].
  simpl. f_equal. apply IH. destruct Hin; [contradiction | assumption].
Qed.

Lemma Map_set_keys_notin k v m :
  ~ In k (Map_keys m) -> Map_keys (Map_set k v m) = Map_keys m ++ [k].
Proof.
  induction m as [|[k' v'] m IH]; simpl; [reflexivity|].
  intros Hnin. destruct (Z.eqb_spec k' k) as [->|Hne].
  - exfalso. apply Hnin. now left.
  - simpl. f_equal. apply IH. intros Hin. apply Hnin. now right.
Qed.

Lemma Map_get_set_eq k v m : Map_get k (Map_set k v m) = Some v.
Proof.
  unfold Map_get. induction m as [|[k' v'] m IH]; simpl.
  - now rewrite Z.eqb_refl.
  - destruct (Z.eqb_spec k' k) as [->|Hne]; simpl.
    + now rewrite Z.eqb_refl.
    + destruct (Z.eqb_spec k' k); [contradiction | exact IH].
Qed.

Lemma Map_get_set_ne k k' v m :
  k' <> k -> Map_get k' (Map_set k v m) = Map_get k' m.
Proof.
  intros Hne. unfold Map_get. induction m as [|[k0 v0] m IH]; simpl.
  - destruct (Z.eqb_spec k k'); [congruence | reflexivity].
  - destruct (Z.eqb_spec k0 k) as [->|Hk]; simpl.
    + destruct (Z.eqb_spec k k'); [congruence | reflexivity].
    + destruct (Z.eqb_spec k0 k'); [reflexivity | exact IH].
Qed.

Lemma Map_set_NoDup k v m :
  List.NoDup (Map_keys m) -> List.NoDup (Map_keys (Map_set k v m)).
Proof.
  intros Hnd. destruct (in_dec Z.eq_dec k (Map_keys m)) as [Hin|Hnin].
  - now rewrite Map_set_keys_in.
  - rewrite Map_set_keys_notin by assumption.
    apply List.NoDup_app; [exact Hnd | |].
    + constructor; [intros [] | constructor].
    + intros x Hx [<-|[]]. contradiction.
Qed.

(** The step of [new Map(entries)]. *)
Let step m (e : Z * V) := Map_set (fst e) (snd e) m.

Lemma Map_fold_NoDup (es : list (Z * V)) m :
  List.NoDup (Map_keys m) -> List.NoDup (Map_keys (fold_left step es m)).
Proof.
  revert m. induction es as [|e es IH]; intros m Hnd; simpl; [exact Hnd|].
  apply IH. now apply Map_set_NoDup.
Qed.

(** Keys stand where they were first inserted. *)
Lemma Map_fold_keys (es : list (Z * V)) m :
  Map_keys (fold_left step es m) =
  Map_keys m ++ List.filter (fresh (Map_keys m)) (Spec.keep_first (map fst es)).
Proof.
  revert m. induction es as [|[k v] es IH]; intros m; simpl.
  - now rewrite app_nil_r.
  - rewrite IH. unfold step at 1 2; simpl.
    destruct (in_dec Z.eq_dec k (Map_keys m)) as [Hin|Hnin].
    + rewrite Map_set_keys_in, (fresh_false _ _ Hin) by assumption.
      f_equal. rewrite filter_twice. apply filter_ext. intros y.
      destruct (Z.eqb_spec y k) as [->|Hne]; simpl; [|reflexivity].
      now apply fresh_false.
    + rewrite Map_set_keys_notin, (fresh_true _ _ Hnin) by assumption.
      rewrite <- app_assoc. simpl. do 2 f_equal.
      rewrite filter_twice. apply filter_ext. intros y. unfold fresh.
      rewrite existsb_app. simpl. rewrite orb_false_r, negb_orb.
      apply andb_comm.
Qed.

(** Values are those set last. *)
Lemma Map_fold_get (es : list (Z * V)) m k :
  Map_get k (fold_left step es m) =
  match List.find (fun e => (fst e =? k)%Z) (rev es) with
  | Some e => Some (snd e)
  | None => Map_get k m
  end.
Proof.
  revert m. induction es as [|[k0 v0] es IH]; intros m; simpl; [reflexivity|].
  rewrite IH, find_last. simpl.
  destruct (List.find _ (rev es)); [reflexivity|].
  unfold step; simpl. destruct (Z.eqb_spec k0 k) as [->|Hne].
  - apply Map_get_set_eq.
  - apply Map_get_set_ne. congruence.
Qed.

Lemma Map_get_In k v m :
  List.NoDup (Map_keys m) -> In (k, v) m -> Map_get k m = Some v.
Proof.
  unfold Map_get. induction m as [|[k' v'] m IH]; simpl; [contradiction|].
  intros Hnd Hin. inversion Hnd as [|? ? Hk Hnd']; subst.
  destruct Hin as [Heq|Hin].
  - inversion Heq; subst. now rewrite Z.eqb_refl.
  - destruct (Z.eqb_spec k' k) as [->|Hne]; [|now apply IH].
    exfalso. apply Hk.
    change k with (fst (k, v)). now apply in_map.
Qed.

Lemma Map_new_keys (es : list (Z * V)) :
  Map_keys (Map_new es) = Spec.keep_first (map fst es).
Proof.
  unfold Map_new. fold step. rewrite Map_fold_keys. simpl.
  induction (Spec.keep_first (map fst es)) as [|x l IH]; simpl; congruence.
Qed.
End MapFacts.

(** ** First-occurrence order *)
Section KeepFirst.
Import Spec.

Lemma keep_first_In (l : list Z) (x : Z) : In x (keep_first l) <-> In x l.
Proof.
  induction l as [|y l IH]; simpl; [tauto|].
  rewrite filter_In, IH, negb_true_iff, Z.eqb_neq.
  destruct (Z.eq_dec y x); [subst; tauto|].
  split; [tauto|]. intros [?|?]; [tauto|]. right. split; congruence.
Qed.

Lemma keep_first_NoDup (l : list Z) : List.NoDup (keep_first l).
Proof.
  induction l as [|y l IH]; simpl; constructor.
  - rewrite filter_In, Z.eqb_refl. simpl. intros [_ H]. discriminate.
  - now apply List.NoDup_filter.
Qed.

(** Filtering keeps the relative order of the elements it keeps. *)
Lemma index_of_filter (f : Z -> bool) (l : list Z) (i j : Z) :
  f i = true -> f j = true -> In i l -> In j l ->
  (index_of i (List.filter f l) < index_of j (List.filter f l) <->
   index_of i l < index_of j l)%nat.
Proof.
  intros Hi Hj. induction l as [|y l IH]; simpl; [tauto|].
  intros Hini Hinj. destruct (f y) eqn:Hy; simpl.
  - destruct (Z.eqb_spec y i), (Z.eqb_spec y j); try lia.
    rewrite <- Nat.succ_lt_mono, <- Nat.succ_lt_mono.
    apply IH; [destruct Hini | destruct Hinj]; tauto.
  - destruct (Z.eqb_spec y i); [congruence|].
    destruct (Z.eqb_spec y j); [congruence|].
    rewrite <- Nat.succ_lt_mono.
    apply IH; [destruct Hini | destruct Hinj]; tauto.
Qed.

(** [keep_first l] lists the identifiers of [l] in the order of their
    first occurrences. *)
Lemma keep_first_order (l : list Z) (i j : Z) :
  In i l -> In j l ->
  (index_of i (keep_first l) < index_of j (keep_first l) <->
   index_of i l < index_of j l)%nat.
Proof.
  induction l as [|y l IH]; simpl; [tauto|].
  intros Hini Hinj.
  destruct (Z.eqb_spec y i) as [Hyi|Hyi], (Z.eqb_spec y j) as [Hyj|Hyj];
    try lia.
  assert (In i l) by (destruct Hini; tauto).
  assert (In j l) by (destruct Hinj; tauto).
  rewrite <- Nat.succ_lt_mono, <- Nat.succ_lt_mono, <- IH by assumption.
  apply index_of_filter.
  - apply negb_true_iff, Z.eqb_neq. congruence.
  - apply negb_true_iff, Z.eqb_neq. congruence.
  - now apply keep_first_In.
  - now apply keep_first_In.
Qed.
End KeepFirst.

(** ** Deduplication *)
Section UniqueProducts.
Import Js Spec CategoryProductList.

Let entry (item : Product) : Z * Product := (id item, item).

Lemma Map_new_entry (all : list Product) (k : Z) :
  Map_get k (Map_new (map entry all)) = last_with_id k all.
Proof.
  unfold Map_new. rewrite Map_fold_get, <- map_rev, find_map. simpl.
  unfold last_with_id. destruct (List.find _ (rev all)); reflexivity.
Qed.

(** Every entry of the map is the last product of its key. *)
Lemma Map_new_entry_In (all : list Product) (k : Z) (x : Product) :
  In (k, x) (Map_new (map entry all)) ->
  last_with_id k all = Some x /\ id x = k.
Proof.
  intros Hin. rewrite <- Map_new_entry.
  assert (Hget : Map_get k (Map_new (map entry all)) = Some x).
  { apply Map_get_In; [|exact Hin]. apply Map_fold_NoDup. constructor. }
  split; [exact Hget|]. rewrite Map_new_entry in Hget.
  apply find_some in Hget. now apply Z.eqb_eq.
Qed.

Lemma uniqueProducts_ids (all : list Product) :
  map id (uniqueProducts all) = keep_first (map id all).
Proof.
  unfold uniqueProducts, Map_values. fold entry.
  rewrite map_map.
  rewrite (map_ext_in _ fst).
  - change (map fst (Map_new (map entry all)))
      with (Map_keys (Map_new (map entry all))).
    rewrite Map_new_keys, map_map. reflexivity.
  - intros [k x] Hin. simpl. now apply Map_new_entry_In in Hin.
Qed.

Lemma uniqueProducts_NoDup (all : list Product) :
  List.NoDup (map id (uniqueProducts all)).
Proof. rewrite uniqueProducts_ids. apply keep_first_NoDup. Qed.

Lemma uniqueProducts_last (all : list Product) (x : Product) :
  In x (uniqueProducts all) -> last_with_id (id x) all = Some x.
Proof.
  unfold uniqueProducts, Map_values. fold entry. intros Hin.
  apply in_map_iff in Hin. destruct Hin as ([k y] & Heq & Hin).
  simpl in Heq. subst y. apply Map_new_entry_In in Hin.
  destruct Hin as [Hlast <-]. exact Hlast.
Qed.

Lemma uniqueProducts_has_last (all : list Product) (i : Z) (x : Product) :
  last_with_id i all = Some x -> In x (uniqueProducts all).
Proof.
  rewrite <- Map_new_entry. unfold Map_get, uniqueProducts, Map_values.
  fold entry. destruct (List.find _ _) as [[k y]|] eqn:Hfind; [|discriminate].
  simpl. intros [= <-]. apply find_some in Hfind.
  change y with (snd (k, y)). apply in_map. tauto.
Qed.

(** Two products of the result with one identifier are one product. *)
Lemma uniqueProducts_functional (all : list Product) (x y : Product) :
  In x (uniqueProducts all) -> In y (uniqueProducts all) ->
  id x = id y -> x = y.
Proof.
  intros Hx Hy Hid. apply uniqueProducts_last in Hx, Hy.
  rewrite Hid in Hx. congruence.
Qed.
End UniqueProducts.

Section LastWithId.
Import Spec.

Lemma last_with_id_app (i : Z) (l1 l2 : list Product) :
  last_with_id i (l1 ++ l2) =
  match last_with_id i l2 with
  | Some y => Some y
  | None => last_with_id i l1
  end.
Proof. unfold last_with_id. now rewrite rev_app_distr, find_app. Qed.

Lemma last_with_id_some (i : Z) (l : list Product) (p : Product) :
  In p l -> id p = i -> exists x, last_with_id i l = Some x.
Proof.
  intros Hin Hid. unfold last_with_id.
  destruct (List.find _ (rev l)) as [x|] eqn:Hfind; [now exists x|].
  apply find_none with (x := p) in Hfind; [|now apply in_rev in Hin].
  apply Z.eqb_neq in Hfind. contradiction.
Qed.

Lemma last_with_id_In (i : Z) (l : list Product) (x : Product) :
  last_with_id i l = Some x -> In x l /\ id x = i.
Proof.
  unfold last_with_id. intros Hfind. apply find_some in Hfind.
  destruct Hfind as [Hin Hid]. split; [now apply in_rev | now apply Z.eqb_eq].
Qed.
Lemma last_with_id_none (i : Z) (l : list Product) :
  (forall q, In q l -> id q <> i) -> last_with_id i l = None.
Proof.
  intros Hnone. unfold last_with_id.
  destruct (List.find _ (rev l)) as [x|] eqn:Hfind; [|reflexivity].
  apply find_some in Hfind. destruct Hfind as [Hin Hid].
  apply in_rev in Hin. apply Z.eqb_eq in Hid. now apply Hnone in Hin.
Qed.

(** The last product with identifier [i] stands at a position after which
    no product carries [i]. *)
Lemma last_with_id_position (i : Z) (l : list Product) (x : Product) :
  last_with_id i l = Some x ->
  exists k,
    nth_error l k = Some x
    /\ forall j z, (k < j)%nat -> nth_error l j = Some z -> id z <> i.
Proof.
  revert x. induction l as [|a l IH] using rev_ind; intros x;
    [discriminate|].
  rewrite last_with_id_app. unfold last_with_id at 1. simpl.
  destruct (Z.eqb_spec (id a) i) as [Ha|Ha].
  - intros [= <-]. exists (length l). split.
    + rewrite nth_error_app2 by lia. now rewrite Nat.sub_diag.
    + intros j z Hj Hz.
      assert (Hsome : nth_error (l ++ [a]) j <> None) by congruence.
      apply nth_error_Some in Hsome. rewrite length_app in Hsome.
      simpl in Hsome. lia.
  - intros Hl. destruct (IH x Hl) as (k & Hk & Hafter).
    assert (Hlt : (k < length l)%nat)
      by (apply nth_error_Some; congruence).
    exists k. split; [now rewrite nth_error_app1|].
    intros j z Hj Hz. destruct (Nat.lt_ge_cases j (length l)) as [Hjl|Hjl].
    + rewrite nth_error_app1 in Hz by exact Hjl. now apply (Hafter j z).
    + rewrite nth_error_app2 in Hz by exact Hjl.
      destruct (j - length l)%nat as [|n]; simpl in Hz.
      * now injection Hz as <-.
      * now destruct n.
Qed.
End LastWithId.

(** ** The gateway *)
Section GatewayFacts.
Import Js Api.
Context {World UI : Type}.
Variable api_get : string -> World -> Outcome * World.

(** One call, spelled out on the two outcomes of the request. *)
Lemma getProductsByCategory_run (category : string) (env : Env World UI) :
  getProductsByCategory api_get category env =
  match api_get (category_url category) (net env) with
  | (Resolved r, w) =>
      (Normal (products (data r)),
       {| net := w; console := console env; ui := ui env |})
  | (Rejected e, w) =>
      (Throw DataUnavailable,
       {| net := w;
          console := console env ++
            [[LStr ("Erro ao buscar produtos da categoria " +:+ category +:+ ":");
              LStr (or_undef (option_map Js.data (response e)) (message e))]];
          ui := ui env |})
  end.
Proof.
  unfold getProductsByCategory, try_catch, bind, get.
  destruct (api_get (category_url category) (net env)) as [[r|e] w];
    reflexivity.
Qed.

(** The gateway never touches the interface state. *)
Lemma getProductsByCategory_ui (category : string) (env : Env World UI) :
  ui (snd (getProductsByCategory api_get category env)) = ui env.
Proof.
  rewrite getProductsByCategory_run.
  destruct (api_get (category_url category) (net env)) as [[r|e] w];
    reflexivity.
Qed.

(** C6: whatever the request was rejected with (a transport error, the
    timeout, a response outside 2xx), [getProductsByCategory] throws one
    fixed error: its message is the generic text and it carries nothing of
    the cause, which only goes to the console. *)
Theorem getProductsByCategory_generic_error
    (category : string) (env : Env World UI) (e : Error) (w : World) :
  api_get (category_url category) (net env) = (Rejected e, w) ->
  fst (getProductsByCategory api_get category env) = Throw DataUnavailable
  /\ message DataUnavailable =
       "Não foi possível carregar os produtos. Tente novamente mais tarde."
  /\ response DataUnavailable = None
  /\ console (snd (getProductsByCategory api_get category env)) =
       console env ++
       [[LStr ("Erro ao buscar produtos da categoria " +:+ category +:+ ":");
         LStr (or_undef (option_map Js.data (response e)) (message e))]].
Proof.
  intros Hget. rewrite getProductsByCategory_run, Hget. simpl.
  repeat split; reflexivity.
Qed.
End GatewayFacts.

(** ** The aggregator *)
Section ComponentFacts.
Import Js Spec CategoryProductList.
Context {World : Type}.
Variable api_get : string -> World -> Api.Outcome * World.

(** The loop either gathers every response after [acc] or stops at the
    first rejected request with the gateway's error; the state hooks are
    not touched meanwhile. *)
Lemma for_of_appendCategory (categories : list string)
    (acc : list Product) (env : Env World State) :
  exists env',
    for_of categories acc (appendCategory api_get) env =
      (match fetchAll api_get categories (net env) with
       | Some rs => Normal (acc ++ concat rs)
       | None => Throw Api.DataUnavailable
       end, env')
    /\ ui env' = ui env.
Proof.
  revert acc env. induction categories as [|c cs IH]; intros acc env; simpl.
  - exists env. unfold ret. now rewrite app_nil_r.
  - unfold bind at 1. unfold appendCategory at 1. unfold bind at 1.
    rewrite getProductsByCategory_run.
    destruct (api_get (Api.category_url c) (net env)) as [[r|e] w].
    + unfold ret at 1.
      destruct (IH (acc ++ Api.products (Api.data r))
                  {| net := w; console := console env; ui := ui env |})
        as (env' & Hrun & Hui).
      exists env'. split; [|exact Hui].
      rewrite Hrun. simpl.
      destruct (fetchAll api_get cs w); simpl; [|reflexivity].
      now rewrite app_assoc.
    + eexists. split; reflexivity.
Qed.

(** A run in which every request is answered. *)
Lemma loadProducts_succeeded (categories : list string)
    (env : Env World State) (rs : list (list Product)) :
  fetchAll api_get categories (net env) = Some rs ->
  fst (loadProducts api_get categories env) = Normal tt
  /\ ui (snd (loadProducts api_get categories env)) =
     {| products := uniqueProducts (concat rs); isLoading := false;
        error := None; refreshing := false |}.
Proof.
  intros Hfetch.
  unfold loadProducts, bind, try_finally, try_catch, setIsLoading, setError,
    setProducts, setRefreshing, modify_ui. simpl.
  match goal with |- context [for_of categories [] _ ?e] =>
    destruct (for_of_appendCategory categories [] e) as (env' & Hrun & Hui)
  end.
  rewrite Hrun. simpl in *. rewrite Hfetch. simpl. rewrite Hui. simpl.
  split; reflexivity.
Qed.

(** A run in which one request is rejected. *)
Lemma loadProducts_failed (categories : list string) (env : Env World State) :
  fetchAll api_get categories (net env) = None ->
  fst (loadProducts api_get categories env) = Normal tt
  /\ ui (snd (loadProducts api_get categories env)) =
     {| products := products (ui env); isLoading := false;
        error := Some (message Api.DataUnavailable); refreshing := false |}.
Proof.
  intros Hfetch.
  unfold loadProducts, bind, try_finally, try_catch, setIsLoading, setError,
    setProducts, setRefreshing, modify_ui, console_error. simpl.
  match goal with |- context [for_of categories [] _ ?e] =>
    destruct (for_of_appendCategory categories [] e) as (env' & Hrun & Hui)
  end.
  rewrite Hrun. simpl in *. rewrite Hfetch. simpl. rewrite Hui. simpl.
  split; reflexivity.
Qed.
End ComponentFacts.

(** ** The view *)
Section ViewFacts.
Import Js CategoryProductList.

(** The only messages the component ever stores come out of
    [err.message || '...'] and are not empty; on such states the empty
    view is exactly the idle, error-free, empty list. *)
Lemma render_empty_iff (st : State) :
  error st <> Some "" ->
  render st = EmptyView <->
  isLoading st = false /\ error st = None /\ length (products st) = 0%nat.
Proof.
  intros Hmsg. unfold render, error_truthy.
  destruct (isLoading st), (refreshing st), (error st) as [[|a s]|],
    (products st) as [|p l]; simpl; try tauto;
    split; intros H; try discriminate; try tauto;
    destruct H as (? & ? & ?); discriminate.
Qed.

Lemma render_error (st : State) (msg : string) :
  isLoading st = false -> error st = Some msg -> truthy msg = true ->
  render st = ErrorView msg.
Proof.
  intros Hload Herr Hmsg. unfold render, error_truthy.
  now rewrite Hload, Herr, Hmsg.
Qed.
End ViewFacts.

(** ** The aggregate load *)
Section LoadFacts.
Import Js Spec CategoryProductList.
Context {World : Type}.
Variable api_get : string -> World -> Api.Outcome * World.

(** C1: when every request of the load is answered, the list
    [loadProducts] stores is the deduplicated concatenation of the
    responses, and no two of its products share an identifier, whatever
    the responses hold. *)
Theorem loadProducts_ids_distinct (categories : list string)
    (env : Env World State) (rs : list (list Product)) :
  fetchAll api_get categories (net env) = Some rs ->
  let st := ui (snd (loadProducts api_get categories env)) in
  products st = uniqueProducts (concat rs)
  /\ List.NoDup (map id (products st)).
Proof.
  intros Hfetch st. subst st.
  destruct (loadProducts_succeeded api_get categories env rs Hfetch) as [_ ->].
  simpl. split; [reflexivity | apply uniqueProducts_NoDup].
Qed.

(** C2: in a load whose requests are all answered, for every pair of
    entries of the concatenated responses that share an identifier, the
    merged list holds exactly one product with that identifier, and it is
    the last such entry in processing order: it stands at or after the later
    entry of the pair, and no entry after it carries the identifier.  In
    terms of the responses: the product kept under an identifier is the last
    one of the last response that carries it, so that with slugs [a], [b]
    requested in that order and product 7 served under both, the merged
    list shows the title served for [b]. *)
Theorem loadProducts_last_seen_wins (categories : list string)
    (env : Env World State) (rs : list (list Product)) :
  fetchAll api_get categories (net env) = Some rs ->
  let all := concat rs in
  let merged := products (ui (snd (loadProducts api_get categories env))) in
  (forall m n p q,
     (m < n)%nat -> nth_error all m = Some p -> nth_error all n = Some q ->
     id p = id q ->
     exists x k,
       In x merged /\ id x = id q
       /\ (forall y, In y merged -> id y = id q -> y = x)
       /\ (n <= k)%nat /\ nth_error all k = Some x
       /\ (forall j z, (k < j)%nat -> nth_error all j = Some z -> id z <> id q))
  /\ (forall rs1 r rs2 i,
       rs = rs1 ++ r :: rs2 ->
       (exists q, In q r /\ id q = i) ->
       (forall r' q, In r' rs2 -> In q r' -> id q <> i) ->
       exists x,
         In x merged /\ id x = i /\ In x r /\ last_with_id i r = Some x
         /\ forall y, In y merged -> id y = i -> y = x).
Proof.
  intros Hfetch all merged. subst all merged.
  destruct (loadProducts_succeeded api_get categories env rs Hfetch) as [_ ->].
  simpl. split.
  - intros m n p q Hmn Hp Hq Hid.
    destruct (last_with_id_some (id q) (concat rs) q (nth_error_In _ _ Hq)
                eq_refl) as [x Hx].
    destruct (last_with_id_position _ _ _ Hx) as (k & Hk & Hafter).
    apply last_with_id_In in Hx as Hx'. destruct Hx' as [_ Hxid].
    exists x, k. split; [eapply uniqueProducts_has_last, Hx|].
    split; [exact Hxid|]. split; [|split; [|split; assumption]].
    + intros y Hy Hyid. apply uniqueProducts_last in Hy.
      rewrite Hyid in Hy. congruence.
    + destruct (Nat.le_gt_cases n k) as [Hle|Hgt]; [exact Hle|].
      exfalso. now apply (Hafter n q Hgt Hq).
  - intros rs1 r rs2 i -> (q & Hq & Hqid) Hlater.
    destruct (last_with_id_some i r q Hq Hqid) as [x Hx].
    assert (Hall : last_with_id i (concat (rs1 ++ r :: rs2)) = Some x).
    { rewrite concat_app. simpl. rewrite !last_with_id_app.
      rewrite last_with_id_none, Hx; [reflexivity|].
      intros z Hz. apply in_concat in Hz. destruct Hz as (r' & Hr' & Hz).
      now apply (Hlater r' z). }
    apply last_with_id_In in Hx as Hx'. destruct Hx' as [Hxin Hxid].
    exists x. split; [eapply uniqueProducts_has_last, Hall|].
    repeat split; try assumption.
    intros y Hy Hyid. apply uniqueProducts_last in Hy.
    rewrite Hyid in Hy. congruence.
Qed.

(** C3: when a request of the load is rejected, the load ends with the
    error set to a message that is not empty, the stored products are
    those held before the load (nothing gathered from the slugs answered
    earlier is stored), and the component shows the error view. *)
Theorem loadProducts_failure_is_error (categories : list string)
    (env : Env World State) :
  fetchAll api_get categories (net env) = None ->
  let st := ui (snd (loadProducts api_get categories env)) in
  exists msg,
    error st = Some msg /\ msg <> ""
    /\ isLoading st = false
    /\ products st = products (ui env)
    /\ render st = ErrorView msg.
Proof.
  intros Hfetch st. subst st.
  destruct (loadProducts_failed api_get categories env Hfetch) as [_ ->].
  exists (message Api.DataUnavailable). simpl.
  repeat split; try reflexivity. discriminate.
Qed.

(** After a load the error is [null] or a message that is not empty. *)
Lemma loadProducts_error_nonempty (categories : list string)
    (env : Env World State) :
  error (ui (snd (loadProducts api_get categories env))) <> Some "".
Proof.
  destruct (fetchAll api_get categories (net env)) as [rs|] eqn:Hfetch.
  - destruct (loadProducts_succeeded api_get categories env rs Hfetch) as [_ ->].
    discriminate.
  - destruct (loadProducts_failed api_get categories env Hfetch) as [_ ->].
    discriminate.
Qed.

Lemma loadProducts_not_loading (categories : list string)
    (env : Env World State) :
  isLoading (ui (snd (loadProducts api_get categories env))) = false.
Proof.
  destruct (fetchAll api_get categories (net env)) as [rs|] eqn:Hfetch.
  - now destruct (loadProducts_succeeded api_get categories env rs Hfetch)
      as [_ ->].
  - now destruct (loadProducts_failed api_get categories env Hfetch) as [_ ->].
Qed.

(** C7: once a load has completed, loading is finished, and the component
    shows the empty view if and only if loading is finished, the error is
    [null] and the list has no item; the empty view is never the error
    view.  In particular a load whose requests are all answered and whose
    merged list is empty ends on the empty view. *)
Theorem loadProducts_empty_view (categories : list string)
    (env : Env World State) :
  let st := ui (snd (loadProducts api_get categories env)) in
  isLoading st = false
  /\ (render st = EmptyView <->
      isLoading st = false /\ error st = None
      /\ length (products st) = 0%nat)
  /\ (render st = EmptyView -> forall msg, render st <> ErrorView msg)
  /\ (forall rs, fetchAll api_get categories (net env) = Some rs ->
      uniqueProducts (concat rs) = [] -> render st = EmptyView).
Proof.
  intros st. subst st. split; [apply loadProducts_not_loading|].
  split; [apply render_empty_iff, loadProducts_error_nonempty|].
  split; [intros -> msg; discriminate|].
  intros rs Hfetch Hempty.
  destruct (loadProducts_succeeded api_get categories env rs Hfetch) as [_ ->].
  rewrite Hempty. reflexivity.
Qed.

(** C9: in the merged list of a load whose requests are all answered, the
    identifiers stand in the order of their first occurrences in the
    concatenated responses, while each product is the last one of the
    concatenation that carries its identifier. *)
Theorem loadProducts_first_position_last_value (categories : list string)
    (env : Env World State) (rs : list (list Product)) :
  fetchAll api_get categories (net env) = Some rs ->
  let all := concat rs in
  let merged := products (ui (snd (loadProducts api_get categories env))) in
  map id merged = keep_first (map id all)
  /\ (forall i j, In i (map id all) -> In j (map id all) ->
      (index_of i (map id merged) < index_of j (map id merged) <->
       index_of i (map id all) < index_of j (map id all))%nat)
  /\ (forall x, In x merged -> last_with_id (id x) all = Some x)
  /\ (forall p, In p all ->
      exists x, In x merged /\ last_with_id (id p) all = Some x).
Proof.
  intros Hfetch all merged. subst all merged.
  destruct (loadProducts_succeeded api_get categories env rs Hfetch) as [_ ->].
  simpl. split; [apply uniqueProducts_ids|].
  split; [|split].
  - intros i j Hi Hj. rewrite uniqueProducts_ids.
    now apply keep_first_order.
  - apply uniqueProducts_last.
  - intros p Hp.
    destruct (last_with_id_some (id p) _ p Hp eq_refl) as [x Hx].
    exists x. split; [|exact Hx]. eapply uniqueProducts_has_last, Hx.
Qed.
End LoadFacts.

(** ** The login simulation *)
Section LoginFacts.
Import Js Api.

(** C4: [mockLogin] resolves, with [success] and the profile of the test
    user, exactly for the pair [user] / [password]; for every other pair
    it rejects with the invalid-credentials error. *)
Theorem mockLogin_credentials (username password : string) :
  (mockLogin username password =
     Normal {| success := true;
               user := {| Api.username := "user"; name := "Usuário Teste" |} |}
   <-> username = "user" /\ password = "password")
  /\ (mockLogin username password = Throw InvalidCredentials
      <-> ~ (username = "user" /\ password = "password"))
  /\ message InvalidCredentials = "Usuário ou senha inválidos.".
Proof.
  unfold mockLogin.
  destruct (String.eqb_spec username "user") as [Hu|Hu],
           (String.eqb_spec password "password") as [Hp|Hp]; simpl;
    (split; [|split; [|reflexivity]]); split;
    try discriminate; try tauto; intros H; exfalso; tauto.
Qed.
End LoginFacts.

(** ** The session store *)
Section AuthFacts.
Import AuthSlice.

(** C5: from every session state, logged in or not and with any stored
    profile, [logout] leads to the logged-out state with no profile. *)
Theorem logout_resets (state : State) :
  reducer state Logout = {| isLoggedIn := false; user := None |}
  /\ isLoggedIn (logout state) = false
  /\ user (logout state) = None.
Proof. repeat split. Qed.

Lemma loginSuccess_stores (state : State) (u : Api.User) :
  reducer state (LoginSuccess u) = {| isLoggedIn := true; user := Some u |}.
Proof. reflexivity. Qed.
End AuthFacts.

(** ** The product store *)
Section ProductFacts.
Import ProductSlice.

Lemma set_category_lookup (category : string) (v : Category.State)
    (state : State) :
  categories (set_category category v state) !! category = Some v.
Proof. unfold set_category. simpl. apply lookup_insert_eq. Qed.

Lemma set_category_other (category c : string) (v : Category.State)
    (state : State) :
  c <> category ->
  categories (set_category category v state) !! c = categories state !! c.
Proof.
  intros Hne. unfold set_category. simpl. apply lookup_insert_ne. congruence.
Qed.

Lemma not_inherited_not_proto (category : string) :
  Js.inherited category = false -> category <> "__proto__".
Proof. intros Hinh ->. discriminate. Qed.

Lemma assign_category_ok (category : string) (v : Category.State)
    (state : State) :
  category <> "__proto__" ->
  assign_category category v state = Js.Normal (set_category category v state).
Proof.
  intros Hne. unfold assign_category.
  destruct (String.eqb_spec category "__proto__"); [contradiction | reflexivity].
Qed.

(** The fulfilled case stores the entry, but under [__proto__], where the
    store keeps its state. *)
Lemma reducer_fulfilled (state : State) (category : string)
    (fetched : list Product) :
  category <> "__proto__" ->
  reducer state (FetchProductsByCategory_fulfilled category fetched) =
  set_category category
    {| Category.items := fetched; Category.status := succeeded;
       Category.error := None |} state.
Proof.
  intros Hne. unfold reducer, caseReducer. now rewrite assign_category_ok.
Qed.

Lemma reducer_fulfilled_proto (state : State) (fetched : list Product) :
  reducer state (FetchProductsByCategory_fulfilled "__proto__" fetched) = state.
Proof. reflexivity. Qed.

(** The pending and the rejected case, on the three things the test of
    the entry can read. *)
Lemma reducer_pending_own (state : State) (category : string)
    (c : Category.State) :
  categories state !! category = Some c ->
  reducer state (FetchProductsByCategory_pending category) =
  set_category category
    {| Category.items := Category.items c; Category.status := loading;
       Category.error := Category.error c |} state.
Proof. intros Hc. unfold reducer, caseReducer, read. now rewrite Hc. Qed.

Lemma reducer_rejected_own (state : State) (category : string)
    (c : Category.State) (payload : option string) :
  categories state !! category = Some c ->
  reducer state (FetchProductsByCategory_rejected category payload) =
  set_category category
    {| Category.items := Category.items c; Category.status := failed;
       Category.error := payload |} state.
Proof. intros Hc. unfold reducer, caseReducer, read. now rewrite Hc. Qed.

Lemma reducer_pending_new (state : State) (category : string) :
  categories state !! category = None -> Js.inherited category = false ->
  reducer state (FetchProductsByCategory_pending category) =
  set_category category
    {| Category.items := []; Category.status := loading;
       Category.error := None |} state.
Proof.
  intros Hc Hinh. unfold reducer, caseReducer, read. rewrite Hc, Hinh.
  now rewrite assign_category_ok by now apply not_inherited_not_proto.
Qed.

Lemma reducer_rejected_new (state : State) (category : string)
    (payload : option string) :
  categories state !! category = None -> Js.inherited category = false ->
  reducer state (FetchProductsByCategory_rejected category payload) =
  set_category category
    {| Category.items := []; Category.status := failed;
       Category.error := payload |} state.
Proof.
  intros Hc Hinh. unfold reducer, caseReducer, read. rewrite Hc, Hinh.
  now rewrite assign_category_ok by now apply not_inherited_not_proto.
Qed.

Lemma reducer_pending_inherited (state : State) (category : string) :
  categories state !! category = None -> Js.inherited category = true ->
  reducer state (FetchProductsByCategory_pending category) = state.
Proof.
  intros Hc Hinh. unfold reducer, caseReducer, read. now rewrite Hc, Hinh.
Qed.

Lemma reducer_rejected_inherited (state : State) (category : string)
    (payload : option string) :
  categories state !! category = None -> Js.inherited category = true ->
  reducer state (FetchProductsByCategory_rejected category payload) = state.
Proof.
  intros Hc Hinh. unfold reducer, caseReducer, read. now rewrite Hc, Hinh.
Qed.


(** C10: for a category already in the store, the pending transition of a
    refetch keeps its items (and its error) and only sets the status to
    [loading]; the rejected transition keeps its items and only sets the
    status to [failed] and the error to the payload. *)
Theorem refetch_keeps_items (state : State) (category : string)
    (c : Category.State) :
  categories state !! category = Some c ->
  categories (reducer state (FetchProductsByCategory_pending category))
    !! category =
    Some {| Category.items := Category.items c; Category.status := loading;
            Category.error := Category.error c |}
  /\ forall payload,
      categories
        (reducer state (FetchProductsByCategory_rejected category payload))
        !! category =
      Some {| Category.items := Category.items c; Category.status := failed;
              Category.error := payload |}.
Proof.
  intros Hc. split; [|intros payload].
  - rewrite (reducer_pending_own state category c Hc).
    apply set_category_lookup.
  - rewrite (reducer_rejected_own state category c payload Hc).
    apply set_category_lookup.
Qed.
End ProductFacts.

(** ** The code at work on the demo world *)
Section Runs.
Import Js CategoryProductList.

Lemma loadProducts_ids_distinct_witness :
  Spec.fetchAll Demo.api_get ["a"; "b"] (net Demo.env0) =
    Some [[Demo.product 7 "Shirt (a)"; Demo.product 8 "Belt"];
          [Demo.product 9 "Cap"; Demo.product 7 "Shirt (b)"]]
  /\ List.NoDup
       (map id (products (ui (snd (loadProducts Demo.api_get ["a"; "b"] Demo.env0))))).
Proof.
  split; [reflexivity|].
  apply (loadProducts_ids_distinct Demo.api_get ["a"; "b"] Demo.env0
           [[Demo.product 7 "Shirt (a)"; Demo.product 8 "Belt"];
            [Demo.product 9 "Cap"; Demo.product 7 "Shirt (b)"]]).
  reflexivity.
Defined.

Lemma loadProducts_last_seen_wins_witness :
  Spec.fetchAll Demo.api_get ["a"; "b"] (net Demo.env0) =
    Some [[Demo.product 7 "Shirt (a)"; Demo.product 8 "Belt"];
          [Demo.product 9 "Cap"; Demo.product 7 "Shirt (b)"]]
  /\ exists x,
      In x (products (ui (snd (loadProducts Demo.api_get ["a"; "b"] Demo.env0))))
      /\ id x = 7
      /\ In x [Demo.product 9 "Cap"; Demo.product 7 "Shirt (b)"]
      /\ Spec.last_with_id 7 [Demo.product 9 "Cap"; Demo.product 7 "Shirt (b)"]
         = Some x
      /\ forall y,
          In y (products (ui (snd (loadProducts Demo.api_get ["a"; "b"] Demo.env0)))) ->
          id y = 7 -> y = x.
Proof.
  split; [reflexivity|].
  apply (proj2 (loadProducts_last_seen_wins Demo.api_get ["a"; "b"] Demo.env0
                  [[Demo.product 7 "Shirt (a)"; Demo.product 8 "Belt"];
                   [Demo.product 9 "Cap"; Demo.product 7 "Shirt (b)"]]
                  eq_refl)
           [[Demo.product 7 "Shirt (a)"; Demo.product 8 "Belt"]]
           [Demo.product 9 "Cap"; Demo.product 7 "Shirt (b)"] [] 7).
  - reflexivity.
  - exists (Demo.product 7 "Shirt (b)"). split; [simpl; tauto | reflexivity].
  - intros r' q [].
Defined.

(** The titles of the merged list: product 7 keeps the place the response
    for [a] gave it and shows the title served for [b]. *)
Example loadProducts_a_b_titles :
  map (fun p => (id p, title p))
    (products (ui (snd (loadProducts Demo.api_get ["a"; "b"] Demo.env0))))
  = [(7, "Shirt (b)"); (8, "Belt"); (9, "Cap")].
Proof. reflexivity. Qed.

Lemma loadProducts_failure_is_error_witness :
  Spec.fetchAll Demo.api_get ["mens-shirts"; "mens-shoes"] (net Demo.env0) = None
  /\ exists msg,
      error (ui (snd (loadProducts Demo.api_get ["mens-shirts"; "mens-shoes"] Demo.env0)))
        = Some msg
      /\ msg <> ""
      /\ isLoading (ui (snd (loadProducts Demo.api_get ["mens-shirts"; "mens-shoes"] Demo.env0)))
         = false
      /\ products (ui (snd (loadProducts Demo.api_get ["mens-shirts"; "mens-shoes"] Demo.env0)))
         = products (ui Demo.env0)
      /\ render (ui (snd (loadProducts Demo.api_get ["mens-shirts"; "mens-shoes"] Demo.env0)))
         = ErrorView msg.
Proof.
  split; [reflexivity|].
  apply (loadProducts_failure_is_error Demo.api_get
           ["mens-shirts"; "mens-shoes"] Demo.env0).
  reflexivity.
Defined.

Lemma getProductsByCategory_generic_error_witness :
  Demo.api_get (Api.category_url "mens-shoes") (net Demo.env0) =
    (Api.Rejected Demo.NetworkError, 1%nat)
  /\ fst (Api.getProductsByCategory Demo.api_get "mens-shoes" Demo.env0) =
     Throw Api.DataUnavailable.
Proof.
  split; [reflexivity|].
  apply (getProductsByCategory_generic_error Demo.api_get "mens-shoes"
           Demo.env0 Demo.NetworkError 1%nat).
  reflexivity.
Defined.

(** A 404 with a body and a transport error surface as the same error. *)
Example getProductsByCategory_404_same_error :
  fst (Api.getProductsByCategory Demo.api_get "no-such-category" Demo.env0)
  = fst (Api.getProductsByCategory Demo.api_get "mens-shoes" Demo.env0).
Proof. reflexivity. Qed.

Lemma loadProducts_first_position_last_value_witness :
  Spec.fetchAll Demo.api_get ["a"; "b"] (net Demo.env0) =
    Some [[Demo.product 7 "Shirt (a)"; Demo.product 8 "Belt"];
          [Demo.product 9 "Cap"; Demo.product 7 "Shirt (b)"]]
  /\ map id (products (ui (snd (loadProducts Demo.api_get ["a"; "b"] Demo.env0))))
     = Spec.keep_first [7; 8; 9; 7].
Proof.
  split; [reflexivity|].
  apply (loadProducts_first_position_last_value Demo.api_get ["a"; "b"]
           Demo.env0
           [[Demo.product 7 "Shirt (a)"; Demo.product 8 "Belt"];
            [Demo.product 9 "Cap"; Demo.product 7 "Shirt (b)"]]).
  reflexivity.
Defined.

(** A category with no product ends on the empty view. *)
Example loadProducts_empty_category :
  render (ui (snd (loadProducts Demo.api_get ["empty"] Demo.env0))) = EmptyView.
Proof. reflexivity. Qed.



(** A slug that is a name objects inherit: the pending and the rejected
    action find it present and leave the store as it is, while the
    fulfilled action stores an entry of its own. *)
Example inherited_slug_constructor :
  ProductSlice.reducer ProductSlice.initialState
    (ProductSlice.FetchProductsByCategory_pending "constructor") =
    ProductSlice.initialState
  /\ ProductSlice.reducer ProductSlice.initialState
       (ProductSlice.FetchProductsByCategory_rejected "constructor" (Some "down")) =
     ProductSlice.initialState
  /\ ProductSlice.categories
       (ProductSlice.reducer ProductSlice.initialState
          (ProductSlice.FetchProductsByCategory_fulfilled "constructor" []))
       !! "constructor" =
     Some {| ProductSlice.Category.items := [];
             ProductSlice.Category.status := ProductSlice.succeeded;
             ProductSlice.Category.error := None |}.
Proof. repeat split; vm_compute; reflexivity. Qed.

Lemma refetch_keeps_items_witness :
  ProductSlice.categories Demo.category_loaded !! "a" =
    Some {| ProductSlice.Category.items := [Demo.product 7 "Shirt (a)"];
            ProductSlice.Category.status := ProductSlice.succeeded;
            ProductSlice.Category.error := None |}
  /\ ProductSlice.categories
       (ProductSlice.reducer Demo.category_loaded
          (ProductSlice.FetchProductsByCategory_pending "a")) !! "a" =
     Some {| ProductSlice.Category.items := [Demo.product 7 "Shirt (a)"];
             ProductSlice.Category.status := ProductSlice.loading;
             ProductSlice.Category.error := None |}.
Proof.
  split; [vm_compute; reflexivity|].
  apply (refetch_keeps_items Demo.category_loaded "a"
           {| ProductSlice.Category.items := [Demo.product 7 "Shirt (a)"];
              ProductSlice.Category.status := ProductSlice.succeeded;
              ProductSlice.Category.error := None |}).
  vm_compute. reflexivity.
Defined.
End Runs.

(** * Further properties *)

(** ** Deduplication, continued *)
Section UniqueProductsMore.
Import Js Spec CategoryProductList.

Lemma Map_set_fresh {V : Type} (k : Z) (v : V) (m : list (Z * V)) :
  ~ In k (Map_keys m) -> Map_set k v m = m ++ [(k, v)].
Proof.
  induction m as [|[k' v'] m IH]; simpl; [reflexivity|].
  intros Hnin. destruct (Z.eqb_spec k' k) as [->|Hne].
  - exfalso. apply Hnin. now left.
  - f_equal. apply IH. intros Hin. apply Hnin. now right.
Qed.

(** Setting entries whose keys are all new and distinct appends them. *)
Lemma Map_fold_distinct {V : Type} (es m : list (Z * V)) :
  List.NoDup (Map_keys m ++ map fst es) ->
  fold_left (fun m e => Map_set (fst e) (snd e) m) es m = m ++ es.
Proof.
  revert m. induction es as [|[k v] es IH]; intros m Hnd; simpl.
  - now rewrite app_nil_r.
  - simpl in Hnd. apply NoDup_remove_2 in Hnd as Hk.
    rewrite Map_set_fresh by (intros Hin; apply Hk, in_or_app; now left).
    rewrite IH.
    + now rewrite <- app_assoc.
    + unfold Map_keys. rewrite map_app, <- app_assoc. exact Hnd.
Qed.

Lemma uniqueProducts_NoDup_id (all : list Product) :
  List.NoDup (map id all) -> uniqueProducts all = all.
Proof.
  intros Hnd. unfold uniqueProducts, Map_new.
  rewrite Map_fold_distinct.
  - simpl. unfold Map_values. rewrite map_map. simpl. apply map_id.
  - simpl. now rewrite map_map.
Qed.

(** X1: a list whose identifiers are already pairwise distinct comes out of
    the deduplication as it went in: same products, same order. *)
Theorem uniqueProducts_distinct_unchanged (all : list Product) :
  List.NoDup (map id all) -> uniqueProducts all = all.
Proof. apply uniqueProducts_NoDup_id. Qed.

(** X2: deduplicating twice is deduplicating once. *)
Theorem uniqueProducts_idempotent (all : list Product) :
  uniqueProducts (uniqueProducts all) = uniqueProducts all.
Proof. apply uniqueProducts_NoDup_id, uniqueProducts_NoDup. Qed.

Lemma keep_first_length (l : list Z) : (length (keep_first l) <= length l)%nat.
Proof.
  induction l as [|x l IH]; simpl; [lia|].
  pose proof (filter_length_le (fun y => negb (y =? x)) (keep_first l)). lia.
Qed.

(** X3: the deduplication invents nothing and loses no identifier: every
    product it returns is one of the products given, every identifier given
    is still there, and the result is no longer than the input. *)
Theorem uniqueProducts_conservative (all : list Product) :
  (forall x, In x (uniqueProducts all) -> In x all)
  /\ (forall i, In i (map id (uniqueProducts all)) <-> In i (map id all))
  /\ (length (uniqueProducts all) <= length all)%nat.
Proof.
  split; [|split].
  - intros x Hx. apply uniqueProducts_last, last_with_id_In in Hx. tauto.
  - intros i. rewrite uniqueProducts_ids. apply keep_first_In.
  - rewrite <- (length_map id (uniqueProducts all)), uniqueProducts_ids,
      <- (length_map id all).
    apply keep_first_length.
Qed.

(** X4: the keys [keyExtractor] gives the grid for the deduplicated list are
    pairwise distinct. *)
Theorem keyExtractor_distinct (all : list Product) :
  List.NoDup (map ListKeys.keyExtractor (uniqueProducts all)).
Proof.
  pose proof (uniqueProducts_NoDup all) as Hnd.
  induction (uniqueProducts all) as [|x l IH]; simpl; constructor.
  - inversion Hnd as [|? ? Hx _]; subst. intros Hin. apply Hx.
    apply in_map_iff in Hin. destruct Hin as (y & Hy & Hin).
    unfold ListKeys.keyExtractor, JsLib.String_of_Z in Hy.
    apply (inj pretty) in Hy. rewrite <- Hy. now apply in_map.
  - apply IH. now inversion Hnd.
Qed.
End UniqueProductsMore.

(** ** The aggregate load, continued *)
Section LoadMore.
Import Js Spec CategoryProductList.
Context {World : Type}.
Variable api_get : string -> World -> Api.Outcome * World.

(** One turn of the loop, on the two outcomes of its request. *)
Lemma for_of_cons_run (c : string) (cs : list string)
    (acc : list Product) (env : Env World State) :
  for_of (c :: cs) acc (appendCategory api_get) env =
  match api_get (Api.category_url c) (net env) with
  | (Api.Resolved r, w) =>
      for_of cs (acc ++ Api.products (Api.data r)) (appendCategory api_get)
        {| net := w; console := console env; ui := ui env |}
  | (Api.Rejected e, w) =>
      (Throw Api.DataUnavailable,
       {| net := w;
          console := console env ++
            [[LStr ("Erro ao buscar produtos da categoria " +:+ c +:+ ":");
              LStr (or_undef (option_map Js.data (response e)) (message e))]];
          ui := ui env |})
  end.
Proof.
  simpl. unfold bind at 1. unfold appendCategory at 1. unfold bind at 1.
  rewrite getProductsByCategory_run.
  destruct (api_get (Api.category_url c) (net env)) as [[r|e] w]; reflexivity.
Qed.

(** Once a request of the loop is rejected, the slugs after it play no
    part. *)
Lemma for_of_stops (cs1 cs2 : list string) (c : string)
    (acc : list Product) (env : Env World State) :
  fetchAll api_get (cs1 ++ [c]) (net env) = None ->
  for_of (cs1 ++ c :: cs2) acc (appendCategory api_get) env =
  for_of (cs1 ++ [c]) acc (appendCategory api_get) env.
Proof.
  revert acc env. induction cs1 as [|c1 cs1 IH]; intros acc env.
  - rewrite !app_nil_l, !for_of_cons_run. simpl.
    destruct (api_get (Api.category_url c) (net env)) as [[r|e] w];
      [discriminate | reflexivity].
  - rewrite <- !app_comm_cons, !for_of_cons_run. simpl.
    destruct (api_get (Api.category_url c1) (net env)) as [[r|e] w];
      [|reflexivity].
    intros Hfetch. apply IH. simpl.
    destruct (fetchAll api_get (cs1 ++ [c]) w); [discriminate | reflexivity].
Qed.

(** A loop whose requests are all answered writes nothing to the console. *)
Lemma for_of_answered_console (categories : list string)
    (acc : list Product) (env : Env World State) (rs : list (list Product)) :
  fetchAll api_get categories (net env) = Some rs ->
  console (snd (for_of categories acc (appendCategory api_get) env)) =
  console env.
Proof.
  revert acc env rs. induction categories as [|c cs IH]; intros acc env rs;
    [reflexivity|].
  rewrite for_of_cons_run. simpl.
  destruct (api_get (Api.category_url c) (net env)) as [[r|e] w];
    [|discriminate].
  intros Hfetch.
  destruct (fetchAll api_get cs w) as [rs'|] eqn:Hcs; [|discriminate].
  now rewrite (IH _ _ rs') by exact Hcs.
Qed.

(** X5: with no category to load, [loadProducts] sends no request, logs
    nothing, stores the empty list and ends on the empty view. *)
Theorem loadProducts_no_category (env : Env World State) :
  fst (loadProducts api_get [] env) = Normal tt
  /\ net (snd (loadProducts api_get [] env)) = net env
  /\ console (snd (loadProducts api_get [] env)) = console env
  /\ products (ui (snd (loadProducts api_get [] env))) = []
  /\ render (ui (snd (loadProducts api_get [] env))) = EmptyView.
Proof. repeat split. Qed.

(** X6: the load stops at the first rejected request: the slugs listed
    after it are not requested, and the run (result, remote world, console
    and state) is the one of the list cut after the failing slug. *)
Theorem loadProducts_stops_at_failure (cs1 cs2 : list string) (c : string)
    (env : Env World State) :
  fetchAll api_get (cs1 ++ [c]) (net env) = None ->
  loadProducts api_get (cs1 ++ c :: cs2) env =
  loadProducts api_get (cs1 ++ [c]) env.
Proof.
  intros Hfetch.
  unfold loadProducts, bind, try_finally, try_catch, setIsLoading, setError,
    modify_ui.
  rewrite for_of_stops by exact Hfetch. reflexivity.
Qed.

(** X7: a load whose requests are all answered writes nothing to the
    console and, whatever the component held before (an earlier error, an
    earlier list, a refresh under way), leaves no error, no spinner and the
    merged list: the component shows the grid of the merged products, or the
    empty view when there is none. *)
Theorem loadProducts_answered_replaces_state (categories : list string)
    (env : Env World State) (rs : list (list Product)) :
  fetchAll api_get categories (net env) = Some rs ->
  let env' := snd (loadProducts api_get categories env) in
  console env' = console env
  /\ error (ui env') = None
  /\ isLoading (ui env') = false
  /\ refreshing (ui env') = false
  /\ render (ui env') =
     match uniqueProducts (concat rs) with
     | [] => EmptyView
     | merged => ListView merged false
     end.
Proof.
  intros Hfetch env'. subst env'.
  destruct (loadProducts_succeeded api_get categories env rs Hfetch) as [_ Hui].
  split.
  - unfold loadProducts, bind, try_finally, try_catch, setIsLoading, setError,
      setProducts, setRefreshing, modify_ui. simpl.
    match goal with |- context [for_of categories [] _ ?e] =>
      pose proof (for_of_answered_console categories [] e rs Hfetch) as Hcon;
      destruct (for_of_appendCategory api_get categories [] e)
        as (env1 & Hrun & _)
    end.
    rewrite Hrun in Hcon |- *. simpl in Hcon |- *. rewrite Hfetch. simpl.
    exact Hcon.
  - rewrite Hui. simpl. repeat split.
    unfold render. simpl. now destruct (uniqueProducts (concat rs)).
Qed.

(** X8: a pull-to-refresh ends in the state a plain load leaves, with the
    refresh indicator off, whether the requests are answered or not. *)
Theorem onRefresh_ends_like_load (categories : list string)
    (env : Env World State) :
  fst (onRefresh api_get categories env) = Normal tt
  /\ ui (snd (onRefresh api_get categories env)) =
     ui (snd (loadProducts api_get categories env))
  /\ refreshing (ui (snd (onRefresh api_get categories env))) = false.
Proof.
  set (env1 := {| net := net env; console := console env;
                  ui := {| products := products (ui env);
                           isLoading := isLoading (ui env);
                           error := error (ui env); refreshing := true |} |}).
  change (onRefresh api_get categories env)
    with (loadProducts api_get categories env1).
  destruct (fetchAll api_get categories (net env)) as [rs|] eqn:Hfetch.
  - destruct (loadProducts_succeeded api_get categories env1 rs Hfetch)
      as [-> ->].
    destruct (loadProducts_succeeded api_get categories env rs Hfetch)
      as [_ ->].
    repeat split.
  - destruct (loadProducts_failed api_get categories env1 Hfetch) as [-> ->].
    destruct (loadProducts_failed api_get categories env Hfetch) as [_ ->].
    repeat split.
Qed.
End LoadMore.

(** ** The product store, continued *)
Section ProductStoreMore.
Import ProductSlice StoreSpec.

(** What an action of the category thunk does to the store: nothing, or
    one entry written under its category. *)
Lemma reducer_category_step (state : State) (action : Action) (c : string) :
  category_of action = Some c ->
  reducer state action = state
  \/ exists v, reducer state action = set_category c v state /\ entry_ok v.
Proof.
  destruct action as [c1|c1 l|c1 p| |p|p]; cbn [category_of];
    try discriminate; intros [= ->].
  - destruct (categories state !! c) as [old|] eqn:Hc.
    + right. eexists. split; [apply (reducer_pending_own _ _ _ Hc)|].
      split; simpl; discriminate.
    + destruct (Js.inherited c) eqn:Hinh.
      * left. now apply reducer_pending_inherited.
      * right. eexists. split; [now apply reducer_pending_new|].
        split; simpl; discriminate.
  - destruct (String.eqb_spec c "__proto__") as [->|Hne].
    + left. apply reducer_fulfilled_proto.
    + right. eexists. split; [now apply reducer_fulfilled|].
      split; simpl; [discriminate | reflexivity].
  - destruct (categories state !! c) as [old|] eqn:Hc.
    + right. eexists. split; [apply (reducer_rejected_own _ _ _ _ Hc)|].
      split; simpl; discriminate.
    + destruct (Js.inherited c) eqn:Hinh.
      * left. now apply reducer_rejected_inherited.
      * right. eexists. split; [now apply reducer_rejected_new|].
        split; simpl; discriminate.
Qed.

Lemma reducer_detail_step (state : State) (action : Action) :
  category_of action = None ->
  categories (reducer state action) = categories state.
Proof. destruct action; cbn [category_of]; try discriminate; reflexivity. Qed.

Lemma reducer_frame (state : State) (action : Action) :
  match category_of action with
  | Some c =>
      (forall c', c' <> c ->
         categories (reducer state action) !! c' = categories state !! c')
      /\ currentProduct (reducer state action) = currentProduct state
      /\ status (reducer state action) = status state
      /\ error (reducer state action) = error state
  | None => categories (reducer state action) = categories state
  end.
Proof.
  destruct (category_of action) as [c|] eqn:Hcat.
  - destruct (reducer_category_step state action c Hcat)
      as [->|(v & -> & _)]; [repeat split|].
    split; [intros c' Hne; now apply set_category_other | repeat split].
  - now apply reducer_detail_step.
Qed.

(** X9: an action of the category thunk changes nothing outside its own
    category (the other categories and the three fields of the detail view
    stay), and an action of the detail thunk changes no category. *)
Theorem reducer_touches_only_its_part (state : State) (action : Action) :
  match category_of action with
  | Some c =>
      (forall c', c' <> c ->
         categories (reducer state action) !! c' = categories state !! c')
      /\ currentProduct (reducer state action) = currentProduct state
      /\ status (reducer state action) = status state
      /\ error (reducer state action) = error state
  | None => categories (reducer state action) = categories state
  end.
Proof. apply reducer_frame. Qed.

(** X10: the first pending or rejected action for a category the store
    does not hold yet, and whose slug is not a name objects inherit,
    creates its entry with no item: [loading] and no error, or [failed]
    with the payload as error. *)
Theorem first_fetch_creates_entry (state : State) (category : string) :
  categories state !! category = None ->
  Js.inherited category = false ->
  categories (reducer state (FetchProductsByCategory_pending category))
    !! category =
    Some {| Category.items := []; Category.status := loading;
            Category.error := None |}
  /\ forall payload,
      categories
        (reducer state (FetchProductsByCategory_rejected category payload))
        !! category =
      Some {| Category.items := []; Category.status := failed;
              Category.error := payload |}.
Proof.
  intros Hnone Hinh. split; [|intros payload].
  - rewrite reducer_pending_new by assumption. apply set_category_lookup.
  - rewrite reducer_rejected_new by assumption. apply set_category_lookup.
Qed.

Lemma reducer_keeps_category (state : State) (action : Action) (c : string) :
  is_Some (categories state !! c) ->
  is_Some (categories (reducer state action) !! c).
Proof.
  intros Hc. destruct (category_of action) as [c0|] eqn:Hcat.
  - destruct (reducer_category_step state action c0 Hcat)
      as [->|(v & -> & _)]; [exact Hc|].
    destruct (decide (c = c0)) as [->|Hne].
    + rewrite set_category_lookup. eauto.
    + now rewrite set_category_other.
  - now rewrite reducer_detail_step.
Qed.

(** X11: no action removes a category: an entry the store holds is still
    there after any list of actions. *)
Theorem categories_never_removed (actions : list Action) (state : State)
    (c : string) :
  is_Some (categories state !! c) ->
  is_Some (categories (ProductThunks.run state actions) !! c).
Proof.
  unfold ProductThunks.run. revert state.
  induction actions as [|a actions IH]; intros state Hc; simpl; [exact Hc|].
  apply IH. now apply reducer_keeps_category.
Qed.

Lemma reducer_entries_ok (state : State) (action : Action) :
  (forall c e, categories state !! c = Some e -> entry_ok e) ->
  forall c e, categories (reducer state action) !! c = Some e -> entry_ok e.
Proof.
  intros Hinv c e. destruct (category_of action) as [c0|] eqn:Hcat.
  - destruct (reducer_category_step state action c0 Hcat)
      as [->|(v & -> & Hv)]; [apply Hinv|].
    destruct (decide (c = c0)) as [->|Hne].
    + rewrite set_category_lookup. now intros [= <-].
    + rewrite set_category_other by exact Hne. apply Hinv.
  - rewrite reducer_detail_step by exact Hcat. apply Hinv.
Qed.

(** X12: in every store reached from the initial one, no category entry is
    [idle], and an entry that is [succeeded] holds no error. *)
Theorem category_entries_consistent (actions : list Action) (c : string)
    (e : Category.State) :
  categories (ProductThunks.run initialState actions) !! c = Some e ->
  entry_ok e.
Proof.
  unfold ProductThunks.run.
  assert (Hgen : forall state,
            (forall c e, categories state !! c = Some e -> entry_ok e) ->
            forall c e, categories (fold_left reducer actions state) !! c = Some e ->
                        entry_ok e).
  { induction actions as [|a actions IH]; intros state Hinv; simpl;
      [exact Hinv|].
    apply IH. now apply reducer_entries_ok. }
  apply Hgen. intros c' e'. simpl. rewrite lookup_empty. discriminate.
Qed.

(** X13: of two fulfilled fetches of one category only the later one
    shows: the store is the one the later fetch alone would leave. *)
Theorem fulfilled_last_write_wins (state : State) (category : string)
    (first later : list Product) :
  reducer (reducer state (FetchProductsByCategory_fulfilled category first))
    (FetchProductsByCategory_fulfilled category later) =
  reducer state (FetchProductsByCategory_fulfilled category later).
Proof.
  destruct (String.eqb_spec category "__proto__") as [->|Hne].
  - now rewrite !reducer_fulfilled_proto.
  - rewrite !reducer_fulfilled by exact Hne.
    unfold set_category. simpl. f_equal. apply insert_insert_eq.
Qed.

(** X14: fulfilled fetches of two different categories can land in either
    order: the store is the same. *)
Theorem fulfilled_categories_commute (state : State) (c1 c2 : string)
    (l1 l2 : list Product) :
  c1 <> c2 ->
  reducer (reducer state (FetchProductsByCategory_fulfilled c1 l1))
    (FetchProductsByCategory_fulfilled c2 l2) =
  reducer (reducer state (FetchProductsByCategory_fulfilled c2 l2))
    (FetchProductsByCategory_fulfilled c1 l1).
Proof.
  intros Hne.
  destruct (String.eqb_spec c1 "__proto__") as [->|H1],
           (String.eqb_spec c2 "__proto__") as [->|H2].
  - now destruct Hne.
  - now rewrite !reducer_fulfilled_proto.
  - now rewrite !reducer_fulfilled_proto.
  - rewrite !reducer_fulfilled by assumption.
    unfold set_category. simpl. f_equal. apply insert_insert_ne. congruence.
Qed.

(** X15: a detail fetch that is pending and then fulfilled leaves the
    product with status [succeeded] and no error; pending and then rejected,
    it leaves status [failed] and the payload as error, and the product
    shown before is kept. *)
Theorem details_pending_then_settled (state : State) :
  (forall p,
     reducer (reducer state FetchProductDetails_pending)
       (FetchProductDetails_fulfilled p) =
     {| categories := categories state; currentProduct := Some p;
        status := succeeded; error := None |})
  /\ (forall payload,
       reducer (reducer state FetchProductDetails_pending)
         (FetchProductDetails_rejected payload) =
       {| categories := categories state;
          currentProduct := currentProduct state;
          status := failed; error := payload |}).
Proof. split; reflexivity. Qed.
End ProductStoreMore.

(** ** The product endpoint and the thunks *)
Section ThunkFacts.
Import Js ProductSlice.
Context {World : Type}.
Variable api_get : string -> World -> Api.Outcome * World.
Variable api_get_product : string -> World -> ProductApi.Outcome * World.

Lemma getProductDetails_run {UI : Type} (productId : Z) (env : Env World UI) :
  ProductApi.getProductDetails api_get_product productId env =
  match api_get_product (ProductApi.product_url productId) (net env) with
  | (ProductApi.Resolved d, w) =>
      (Normal d, {| net := w; console := console env; ui := ui env |})
  | (ProductApi.Rejected e, w) =>
      (Throw ProductApi.DetailsUnavailable,
       {| net := w;
          console := console env ++
            [[LStr ("Erro ao buscar detalhes do produto " +:+
                    JsLib.String_of_Z productId +:+ ":");
              LStr (or_undef (option_map Js.data (response e)) (message e))]];
          ui := ui env |})
  end.
Proof.
  unfold ProductApi.getProductDetails, try_catch, bind, ProductApi.get.
  destruct (api_get_product (ProductApi.product_url productId) (net env))
    as [[d|e] w]; reflexivity.
Qed.

(** X16: [getProductDetails] returns the product as served and logs
    nothing when the request is answered; when it is rejected, whatever the
    cause, it throws one fixed error with the generic details message and
    writes the cause to the console only.  It never touches the interface
    state. *)
Theorem getProductDetails_outcomes {UI : Type} (productId : Z)
    (env : Env World UI) :
  let run := ProductApi.getProductDetails api_get_product productId env in
  ui (snd run) = ui env
  /\ match api_get_product (ProductApi.product_url productId) (net env) with
     | (ProductApi.Resolved d, _) =>
         fst run = Normal d /\ console (snd run) = console env
     | (ProductApi.Rejected e, _) =>
         fst run = Throw ProductApi.DetailsUnavailable
         /\ message ProductApi.DetailsUnavailable =
            "Não foi possível carregar os detalhes do produto. Tente novamente mais tarde."
         /\ response ProductApi.DetailsUnavailable = None
         /\ console (snd run) =
            console env ++
            [[LStr ("Erro ao buscar detalhes do produto " +:+
                    JsLib.String_of_Z productId +:+ ":");
              LStr (or_undef (option_map Js.data (response e)) (message e))]]
     end.
Proof.
  intros run. subst run. rewrite getProductDetails_run.
  destruct (api_get_product (ProductApi.product_url productId) (net env))
    as [[d|e] w]; simpl; repeat split.
Qed.

(** The pending case never throws. *)
Lemma caseReducer_pending (state : State) (category : string) :
  caseReducer state (FetchProductsByCategory_pending category) =
  Normal (reducer state (FetchProductsByCategory_pending category)).
Proof.
  unfold reducer, caseReducer, read.
  destruct (categories state !! category); [reflexivity|].
  destruct (Js.inherited category) eqn:Hinh; [reflexivity|].
  now rewrite assign_category_ok by now apply not_inherited_not_proto.
Qed.

Lemma dispatch_ui (action : Action) (env : Env World State) :
  ui (snd (ProductThunks.dispatch (World := World) action env)) =
  reducer (ui env) action.
Proof.
  unfold ProductThunks.dispatch, reducer.
  now destruct (caseReducer (ui env) action).
Qed.

(** The store the category thunk leaves: the pending action, then the
    fulfilled or the rejected one. *)
Lemma fetchProductsByCategory_run (category : string) (env : Env World State) :
  ui (snd (ProductThunks.fetchProductsByCategory api_get category env)) =
  match api_get (Api.category_url category) (net env) with
  | (Api.Resolved r, _) =>
      reducer (reducer (ui env) (FetchProductsByCategory_pending category))
        (FetchProductsByCategory_fulfilled category (Api.products (Api.data r)))
  | (Api.Rejected _, _) =>
      reducer (reducer (ui env) (FetchProductsByCategory_pending category))
        (FetchProductsByCategory_rejected category
           (Some (message Api.DataUnavailable)))
  end.
Proof.
  unfold ProductThunks.fetchProductsByCategory,
    ProductThunks.fetchProductsByCategory_payload, bind, try_catch, ret.
  unfold ProductThunks.dispatch at 1. rewrite caseReducer_pending.
  rewrite getProductsByCategory_run. simpl net.
  destruct (api_get (Api.category_url category) (net env)) as [[r|e] w];
    rewrite dispatch_ui; reflexivity.
Qed.

(** X17: for a category whose slug is not a name objects inherit,
    dispatching the category thunk ends with the category replaced by the
    served list ([succeeded], no error) when the request is answered; when
    it is rejected the category keeps the items it had (none if it is new)
    and is [failed] with the gateway's generic message, never the cause.
    Either way the other categories and the detail fields stay. *)
Theorem fetchProductsByCategory_thunk (category : string)
    (env : Env World State) :
  Js.inherited category = false ->
  let state := ui env in
  let state' :=
    ui (snd (ProductThunks.fetchProductsByCategory api_get category env)) in
  categories state' !! category =
    Some (match api_get (Api.category_url category) (net env) with
          | (Api.Resolved r, _) =>
              {| Category.items := Api.products (Api.data r);
                 Category.status := succeeded; Category.error := None |}
          | (Api.Rejected _, _) =>
              {| Category.items :=
                   match categories state !! category with
                   | Some old => Category.items old
                   | None => []
                   end;
                 Category.status := failed;
                 Category.error := Some (message Api.DataUnavailable) |}
          end)
  /\ (forall c, c <> category -> categories state' !! c = categories state !! c)
  /\ currentProduct state' = currentProduct state
  /\ status state' = status state
  /\ error state' = error state.
Proof.
  intros Hinh state state'. subst state state'.
  rewrite fetchProductsByCategory_run.
  pose proof (not_inherited_not_proto category Hinh) as Hproto.
  pose proof (reducer_frame (ui env)
                (FetchProductsByCategory_pending category)) as Hp.
  cbn [StoreSpec.category_of] in Hp. destruct Hp as (Hp1 & Hp2 & Hp3 & Hp4).
  assert (Hpend : categories
            (reducer (ui env) (FetchProductsByCategory_pending category))
            !! category =
          Some {| Category.items :=
                    match categories (ui env) !! category with
                    | Some old => Category.items old
                    | None => []
                    end;
                  Category.status := loading;
                  Category.error :=
                    match categories (ui env) !! category with
                    | Some old => Category.error old
                    | None => None
                    end |}).
  { destruct (categories (ui env) !! category) as [old|] eqn:Hold.
    - rewrite (reducer_pending_own _ _ _ Hold). apply set_category_lookup.
    - rewrite reducer_pending_new by assumption. apply set_category_lookup. }
  destruct (api_get (Api.category_url category) (net env)) as [[r|e] w].
  - rewrite reducer_fulfilled by exact Hproto.
    split; [apply set_category_lookup|].
    split; [intros c Hne; now rewrite set_category_other, Hp1|].
    repeat split; assumption.
  - rewrite (reducer_rejected_own _ _ _ _ Hpend).
    split; [apply set_category_lookup|].
    split; [intros c Hne; now rewrite set_category_other, Hp1|].
    repeat split; assumption.
Qed.

(** X18: dispatching the detail thunk leaves the served product with
    status [succeeded] and no error when the request is answered; when it is
    rejected the product held before stays, with status [failed] and the
    gateway's generic details message as error.  No category changes. *)
Theorem fetchProductDetails_thunk (productId : Z) (env : Env World State) :
  let state := ui env in
  let state' :=
    ui (snd (ProductThunks.fetchProductDetails api_get_product productId env)) in
  categories state' = categories state
  /\ match api_get_product (ProductApi.product_url productId) (net env) with
     | (ProductApi.Resolved d, _) =>
         currentProduct state' = Some d
         /\ status state' = succeeded /\ error state' = None
     | (ProductApi.Rejected _, _) =>
         currentProduct state' = currentProduct state
         /\ status state' = failed
         /\ error state' = Some (message ProductApi.DetailsUnavailable)
     end.
Proof.
  intros state state'. subst state state'.
  unfold ProductThunks.fetchProductDetails,
    ProductThunks.fetchProductDetails_payload, ProductThunks.dispatch,
    bind, try_catch, ret.
  cbn [caseReducer ui]. rewrite getProductDetails_run. simpl net.
  destruct (api_get_product (ProductApi.product_url productId) (net env))
    as [[d|e] w]; simpl; repeat split.
Qed.
End ThunkFacts.

(** ** The details screen *)
Section DetailsFacts.
Import Js JsLib ProductDetailsScreen.
Context {World : Type}.
Variable api_get_product : string -> World -> ProductApi.Outcome * World.

(** X19: when the request is answered, [loadProductDetails] stores the
    served product, leaves no error and no spinner, opens no dialog, and the
    screen shows the layout of that product with its first image, if any. *)
Theorem loadProductDetails_answered (productId : Z) (env : Env World UI)
    (d : Product) (w : World) :
  api_get_product (ProductApi.product_url productId) (net env) =
    (ProductApi.Resolved d, w) ->
  let env' := snd (loadProductDetails api_get_product productId env) in
  cells (ui env') = {| product := Some d; isLoading := false; error := None |}
  /\ alerts (ui env') = alerts (ui env)
  /\ console env' = console env
  /\ render (cells (ui env')) = DetailsView d (head (images d)).
Proof.
  intros Hget env'. subst env'.
  unfold loadProductDetails, bind, try_finally, try_catch, setIsLoading,
    setError, setProduct, modify_ui.
  rewrite getProductDetails_run. simpl net. rewrite Hget. simpl.
  repeat split.
Qed.

(** X20: when the request is rejected, [loadProductDetails] keeps the
    product it held, sets the generic details message as error, opens one
    dialog titled [Erro] with that message, stops the spinner, and the
    screen shows that message instead of any product. *)
Theorem loadProductDetails_rejected (productId : Z) (env : Env World UI)
    (e : Error) (w : World) :
  api_get_product (ProductApi.product_url productId) (net env) =
    (ProductApi.Rejected e, w) ->
  let env' := snd (loadProductDetails api_get_product productId env) in
  let msg := message ProductApi.DetailsUnavailable in
  cells (ui env') =
    {| product := product (cells (ui env)); isLoading := false;
       error := Some msg |}
  /\ alerts (ui env') =
     alerts (ui env) ++ [{| alert_title := "Erro"; alert_message := msg |}]
  /\ render (cells (ui env')) = ErrorView msg.
Proof.
  intros Hget env' msg. subst env' msg.
  unfold loadProductDetails, bind, try_finally, try_catch, setIsLoading,
    setError, setProduct, Alert_alert, console_error, modify_ui.
  rewrite getProductDetails_run. simpl net. rewrite Hget. simpl.
  split; [reflexivity|]. split; [reflexivity|].
  unfold render. simpl. now destruct (product (cells (ui env))).
Qed.
End DetailsFacts.

(** ** The session store, continued *)
Section AuthMore.
Import AuthSlice.

(** X21: in every session state reached from the initial one, the user is
    flagged as logged in exactly when a profile is stored. *)
Theorem session_flag_matches_profile (actions : list Action) :
  let state := fold_left reducer actions initialState in
  isLoggedIn state = true <-> user state <> None.
Proof.
  simpl.
  assert (Hgen : forall s, (isLoggedIn s = true <-> user s <> None) ->
            isLoggedIn (fold_left reducer actions s) = true <->
            user (fold_left reducer actions s) <> None).
  { induction actions as [|a actions IH]; intros s Hs; simpl; [exact Hs|].
    apply IH. destruct a; simpl; split; congruence. }
  apply Hgen. simpl. split; congruence.
Qed.

(** X22: the session keeps nothing of its past: after any list of actions
    the state is the one the last action alone gives from the initial
    state. *)
Theorem session_last_action_decides (actions : list Action) (a : Action)
    (state : State) :
  fold_left reducer (actions ++ [a]) state = reducer initialState a.
Proof. rewrite fold_left_app. simpl. now destruct a. Qed.
End AuthMore.

(** ** The login screen *)
Section LoginFacts2.
Import Js JsLib LoginScreen.
Context {World : Type}.
Variable trim : string -> string.

(** The interface state [handleLogin] leaves, on the three ways it can
    go. *)
Lemma handleLogin_ui (env : Env World UI) :
  let st := screen (ui env) in
  ui (snd (handleLogin trim env)) =
  if String.eqb (trim (username st)) "" || String.eqb (trim (password st)) ""
  then
    {| screen :=
         {| username := username st; password := password st;
            isLoading := isLoading st;
            isUsernameValid := negb (String.eqb (trim (username st)) "");
            isPasswordValid := negb (String.eqb (trim (password st)) "");
            showPassword := showPassword st; loginErrorMessage := "" |};
       auth := auth (ui env);
       alerts := alerts (ui env) ++
         [{| alert_title := "Atenção";
             alert_message := "Por favor, preencha todos os campos obrigatórios." |}] |}
  else if String.eqb (username st) "user" && String.eqb (password st) "password"
  then
    {| screen :=
         {| username := username st; password := password st;
            isLoading := false; isUsernameValid := true; isPasswordValid := true;
            showPassword := showPassword st; loginErrorMessage := "" |};
       auth := {| AuthSlice.isLoggedIn := true;
                  AuthSlice.user :=
                    Some {| Api.username := "user"; Api.name := "Usuário Teste" |} |};
       alerts := alerts (ui env) |}
  else
    {| screen :=
         {| username := username st; password := password st;
            isLoading := false; isUsernameValid := true; isPasswordValid := true;
            showPassword := showPassword st;
            loginErrorMessage := "Usuário ou senha inválidos." |};
       auth := auth (ui env);
       alerts := alerts (ui env) |}.
Proof.
  unfold handleLogin, validateFields, bind, get_ui, settle, try_finally,
    try_catch, setLoginErrorMessage, setIsUsernameValid, setIsPasswordValid,
    setIsLoading, set_screen, dispatch, Alert_alert, modify_ui, ret,
    Api.mockLogin.
  simpl.
  destruct (String.eqb (trim (username (screen (ui env)))) "");
    destruct (String.eqb (trim (password (screen (ui env)))) ""); simpl;
    try reflexivity.
  destruct (String.eqb (username (screen (ui env))) "user");
    destruct (String.eqb (password (screen (ui env))) "password");
    reflexivity.
Qed.

(** X23: when the user or the password field is blank, [handleLogin] does
    not attempt the login: the session store and the spinner stay as they
    were, one dialog asks to fill the fields, the general error message is
    cleared, and each field is flagged valid exactly when it is not
    blank. *)
Theorem handleLogin_blank_field (env : Env World UI) :
  let st := screen (ui env) in
  trim (username st) = "" \/ trim (password st) = "" ->
  let u' := ui (snd (handleLogin trim env)) in
  auth u' = auth (ui env)
  /\ alerts u' = alerts (ui env) ++
       [{| alert_title := "Atenção";
           alert_message := "Por favor, preencha todos os campos obrigatórios." |}]
  /\ isLoading (screen u') = isLoading st
  /\ loginErrorMessage (screen u') = ""
  /\ (isUsernameValid (screen u') = true <-> trim (username st) <> "")
  /\ (isPasswordValid (screen u') = true <-> trim (password st) <> "").
Proof.
  intros st Hblank u'. subst u'. rewrite handleLogin_ui. fold st.
  destruct (String.eqb_spec (trim (username st)) "") as [Hu|Hu],
           (String.eqb_spec (trim (password st)) "") as [Hp|Hp]; simpl;
    try (exfalso; tauto);
    repeat split; try discriminate; try congruence; intros _; assumption.
Qed.

(** X24: with both fields filled and the pair [user] / [password] typed,
    [handleLogin] stores the profile of the test user in the session store
    as logged in, so that the navigator switches to the main flow; it shows
    no error, opens no dialog and stops the spinner. *)
Theorem handleLogin_signs_in (env : Env World UI) :
  let st := screen (ui env) in
  trim (username st) <> "" -> trim (password st) <> "" ->
  username st = "user" -> password st = "password" ->
  let u' := ui (snd (handleLogin trim env)) in
  auth u' =
    {| AuthSlice.isLoggedIn := true;
       AuthSlice.user :=
         Some {| Api.username := "user"; Api.name := "Usuário Teste" |} |}
  /\ AppNavigator.AppNavigator (auth u') = AppNavigator.MainAppNavigator
  /\ loginErrorMessage (screen u') = ""
  /\ isLoading (screen u') = false
  /\ alerts u' = alerts (ui env).
Proof.
  intros st Hu Hp Hname Hpass u'. subst u'. rewrite handleLogin_ui. fold st.
  destruct (String.eqb_spec (trim (username st)) ""); [contradiction|].
  destruct (String.eqb_spec (trim (password st)) ""); [contradiction|].
  rewrite Hname, Hpass. simpl. repeat split.
Qed.

(** X25: for any other pair, [handleLogin] leaves the session store as it
    was; and when both fields are filled it shows the invalid-credentials
    message, stops the spinner and opens no dialog.  The text is compared as
    typed, so a padded [user] does not pass. *)
Theorem handleLogin_wrong_credentials (env : Env World UI) :
  let st := screen (ui env) in
  ~ (username st = "user" /\ password st = "password") ->
  let u' := ui (snd (handleLogin trim env)) in
  auth u' = auth (ui env)
  /\ (trim (username st) <> "" -> trim (password st) <> "" ->
      loginErrorMessage (screen u') = "Usuário ou senha inválidos."
      /\ isLoading (screen u') = false
      /\ alerts u' = alerts (ui env)).
Proof.
  intros st Hwrong u'. subst u'. rewrite handleLogin_ui. fold st.
  destruct (String.eqb_spec (trim (username st)) "") as [Hu|Hu],
           (String.eqb_spec (trim (password st)) "") as [Hp|Hp]; simpl;
    try (split; [reflexivity | intros; contradiction]).
  destruct (String.eqb_spec (username st) "user") as [Hname|Hname],
           (String.eqb_spec (password st) "password") as [Hpass|Hpass]; simpl;
    try (exfalso; tauto); repeat split.
Qed.
End LoginFacts2.

(** ** The settings screen *)
Section SettingsFacts.
Import Js JsLib SettingsScreen.
Context {World : Type}.

(** X26: [handleLogout] opens one confirmation dialog, and the session
    store changes only when the user presses the second button ([Sim]): it
    is then logged out with no profile and the navigator switches to the
    login flow.  Pressing [Cancelar] or dismissing the dialog leaves the
    session as it was. *)
Theorem handleLogout_only_on_confirm (answer : option nat)
    (env : Env World UI) :
  let u' := ui (snd (handleLogout answer env)) in
  alerts u' = alerts (ui env) ++
    [{| alert_title := "Sair"; alert_message := "Tem certeza que deseja sair?" |}]
  /\ (answer = Some 1%nat ->
      auth u' = {| AuthSlice.isLoggedIn := false; AuthSlice.user := None |}
      /\ AppNavigator.AppNavigator (auth u') = AppNavigator.AuthNavigator)
  /\ (answer <> Some 1%nat -> auth u' = auth (ui env)).
Proof.
  destruct answer as [[|[|[|n]]]|]; simpl; repeat split;
    try discriminate; try congruence; intros H; congruence.
Qed.

(** X27: the profile card never shows an empty name or address: it shows
    the name and the user name of the stored profile when they are not
    empty, and the placeholder otherwise (no profile, or an empty field). *)
Theorem profile_card_never_empty (user : option Api.User) :
  userName user <> "" /\ userEmail user <> ""
  /\ (forall u, user = Some u -> Api.name u <> "" -> userName user = Api.name u)
  /\ (forall u, user = Some u -> Api.username u <> "" ->
      userEmail user = Api.username u).
Proof.
  unfold userName, userEmail.
  destruct user as [[un nm]|]; simpl; unfold or;
    repeat split; try discriminate;
    try (destruct nm; simpl; discriminate);
    try (destruct un; simpl; discriminate);
    intros u [= <-]; simpl; intros Hne.
  - destruct nm; [contradiction | reflexivity].
  - destruct un; [contradiction | reflexivity].
Qed.
End SettingsFacts.

(** ** The further code at work on the demo world *)
Section RunsMore.
Import Js.

Lemma uniqueProducts_distinct_unchanged_witness :
  List.NoDup (map id [Demo.product 7 "Shirt (a)"; Demo.product 8 "Belt"])
  /\ CategoryProductList.uniqueProducts
       [Demo.product 7 "Shirt (a)"; Demo.product 8 "Belt"] =
     [Demo.product 7 "Shirt (a)"; Demo.product 8 "Belt"].
Proof.
  assert (Hnd : List.NoDup (map id [Demo.product 7 "Shirt (a)"; Demo.product 8 "Belt"])).
  { simpl. constructor; [simpl; intros [H|[]]; discriminate|].
    constructor; [intros []|constructor]. }
  split; [exact Hnd|].
  apply (uniqueProducts_distinct_unchanged
           [Demo.product 7 "Shirt (a)"; Demo.product 8 "Belt"] Hnd).
Defined.

Lemma loadProducts_stops_at_failure_witness :
  Spec.fetchAll Demo.api_get (["mens-shirts"] ++ ["mens-shoes"]) (net Demo.env0)
    = None
  /\ CategoryProductList.loadProducts Demo.api_get
       (["mens-shirts"] ++ "mens-shoes" :: ["a"; "b"]) Demo.env0 =
     CategoryProductList.loadProducts Demo.api_get
       (["mens-shirts"] ++ ["mens-shoes"]) Demo.env0.
Proof.
  split; [reflexivity|].
  apply (loadProducts_stops_at_failure Demo.api_get
           ["mens-shirts"] ["a"; "b"] "mens-shoes" Demo.env0).
  reflexivity.
Defined.

Lemma loadProducts_answered_replaces_state_witness :
  Spec.fetchAll Demo.api_get ["a"; "b"] (net Demo.env0) =
    Some [[Demo.product 7 "Shirt (a)"; Demo.product 8 "Belt"];
          [Demo.product 9 "Cap"; Demo.product 7 "Shirt (b)"]]
  /\ console (snd (CategoryProductList.loadProducts Demo.api_get ["a"; "b"] Demo.env0))
     = console Demo.env0.
Proof.
  split; [reflexivity|].
  apply (loadProducts_answered_replaces_state Demo.api_get ["a"; "b"] Demo.env0
           [[Demo.product 7 "Shirt (a)"; Demo.product 8 "Belt"];
            [Demo.product 9 "Cap"; Demo.product 7 "Shirt (b)"]]).
  reflexivity.
Defined.

Lemma first_fetch_creates_entry_witness :
  ProductSlice.categories ProductSlice.initialState !! "a" = None
  /\ Js.inherited "a" = false
  /\ ProductSlice.categories
       (ProductSlice.reducer ProductSlice.initialState
          (ProductSlice.FetchProductsByCategory_pending "a")) !! "a" =
     Some {| ProductSlice.Category.items := [];
             ProductSlice.Category.status := ProductSlice.loading;
             ProductSlice.Category.error := None |}.
Proof.
  split; [vm_compute; reflexivity|]. split; [reflexivity|].
  apply (first_fetch_creates_entry ProductSlice.initialState "a").
  - vm_compute. reflexivity.
  - reflexivity.
Defined.

Lemma categories_never_removed_witness :
  is_Some (ProductSlice.categories Demo.category_loaded !! "a")
  /\ is_Some
       (ProductSlice.categories
          (ProductThunks.run Demo.category_loaded
             [ProductSlice.FetchProductsByCategory_rejected "a" None;
              ProductSlice.FetchProductsByCategory_pending "b"]) !! "a").
Proof.
  assert (H : is_Some (ProductSlice.categories Demo.category_loaded !! "a")).
  { eexists. vm_compute. reflexivity. }
  split; [exact H|].
  apply (categories_never_removed
           [ProductSlice.FetchProductsByCategory_rejected "a" None;
            ProductSlice.FetchProductsByCategory_pending "b"]
           Demo.category_loaded "a" H).
Defined.

Lemma category_entries_consistent_witness :
  ProductSlice.categories
    (ProductThunks.run ProductSlice.initialState
       [ProductSlice.FetchProductsByCategory_rejected "a" (Some "down");
        ProductSlice.FetchProductsByCategory_fulfilled "a" []]) !! "a" =
    Some {| ProductSlice.Category.items := [];
            ProductSlice.Category.status := ProductSlice.succeeded;
            ProductSlice.Category.error := None |}
  /\ StoreSpec.entry_ok
       {| ProductSlice.Category.items := [];
          ProductSlice.Category.status := ProductSlice.succeeded;
          ProductSlice.Category.error := None |}.
Proof.
  split; [vm_compute; reflexivity|].
  apply (category_entries_consistent
           [ProductSlice.FetchProductsByCategory_rejected "a" (Some "down");
            ProductSlice.FetchProductsByCategory_fulfilled "a" []] "a").
  vm_compute. reflexivity.
Defined.

Lemma fulfilled_categories_commute_witness :
  "a" <> "b"
  /\ ProductSlice.reducer
       (ProductSlice.reducer ProductSlice.initialState
          (ProductSlice.FetchProductsByCategory_fulfilled "a" []))
       (ProductSlice.FetchProductsByCategory_fulfilled "b" []) =
     ProductSlice.reducer
       (ProductSlice.reducer ProductSlice.initialState
          (ProductSlice.FetchProductsByCategory_fulfilled "b" []))
       (ProductSlice.FetchProductsByCategory_fulfilled "a" []).
Proof.
  split; [discriminate|].
  apply (fulfilled_categories_commute ProductSlice.initialState "a" "b" [] []).
  discriminate.
Defined.

Lemma fetchProductsByCategory_thunk_witness :
  inherited "a" = false
  /\ ProductSlice.categories
       (ui (snd (ProductThunks.fetchProductsByCategory Demo.api_get "a"
                   Demo2.store0))) !! "a" =
     Some {| ProductSlice.Category.items :=
               [Demo.product 7 "Shirt (a)"; Demo.product 8 "Belt"];
             ProductSlice.Category.status := ProductSlice.succeeded;
             ProductSlice.Category.error := None |}.
Proof.
  split; [reflexivity|].
  apply (proj1 (fetchProductsByCategory_thunk Demo.api_get "a" Demo2.store0
                  eq_refl)).
Defined.

(** The thunk on a slug objects inherit: a rejected request leaves no
    entry in the store. *)
Example fetchProductsByCategory_constructor_rejected :
  Demo.api_get (Api.category_url "constructor") O =
    (Api.Rejected Demo.NotFound, 1%nat)
  /\ ProductSlice.categories
       (ui (snd (ProductThunks.fetchProductsByCategory Demo.api_get
                   "constructor" Demo2.store0))) !! "constructor" = None.
Proof. split; vm_compute; reflexivity. Qed.

Lemma loadProductDetails_answered_witness :
  Demo2.api_get_product (ProductApi.product_url 83) (net Demo2.details0) =
    (ProductApi.Resolved (Demo.product 83 "Blue shirt"), 1%nat)
  /\ ProductDetailsScreen.render
       (ProductDetailsScreen.cells
          (ui (snd (ProductDetailsScreen.loadProductDetails
                      Demo2.api_get_product 83 Demo2.details0)))) =
     ProductDetailsScreen.DetailsView (Demo.product 83 "Blue shirt") None.
Proof.
  split; [vm_compute; reflexivity|].
  apply (loadProductDetails_answered Demo2.api_get_product 83 Demo2.details0
           (Demo.product 83 "Blue shirt") 1%nat).
  vm_compute. reflexivity.
Defined.

Lemma loadProductDetails_rejected_witness :
  Demo2.api_get_product (ProductApi.product_url 84) (net Demo2.details0) =
    (ProductApi.Rejected Demo.NotFound, 1%nat)
  /\ ProductDetailsScreen.render
       (ProductDetailsScreen.cells
          (ui (snd (ProductDetailsScreen.loadProductDetails
                      Demo2.api_get_product 84 Demo2.details0)))) =
     ProductDetailsScreen.ErrorView (message ProductApi.DetailsUnavailable).
Proof.
  split; [vm_compute; reflexivity|].
  apply (loadProductDetails_rejected Demo2.api_get_product 84 Demo2.details0
           Demo.NotFound 1%nat).
  vm_compute. reflexivity.
Defined.

Lemma handleLogin_blank_field_witness :
  (Demo2.trim "   " = "" \/ Demo2.trim "password" = "")
  /\ LoginScreen.auth
       (ui (snd (LoginScreen.handleLogin Demo2.trim (Demo2.typed "   " "password"))))
     = AuthSlice.initialState.
Proof.
  split; [left; reflexivity|].
  apply (handleLogin_blank_field Demo2.trim (Demo2.typed "   " "password")).
  left. reflexivity.
Defined.

Lemma handleLogin_signs_in_witness :
  AppNavigator.AppNavigator
    (LoginScreen.auth
       (ui (snd (LoginScreen.handleLogin Demo2.trim (Demo2.typed "user" "password")))))
  = AppNavigator.MainAppNavigator.
Proof.
  apply (handleLogin_signs_in Demo2.trim (Demo2.typed "user" "password"));
    simpl; [discriminate | discriminate | reflexivity | reflexivity].
Defined.

Lemma handleLogin_wrong_credentials_witness :
  ~ (" user" = "user" /\ "password" = "password")
  /\ LoginScreen.auth
       (ui (snd (LoginScreen.handleLogin Demo2.trim (Demo2.typed " user" "password"))))
     = AuthSlice.initialState.
Proof.
  assert (H : ~ (" user" = "user" /\ "password" = "password"))
    by (intros [H _]; discriminate).
  split; [exact H|].
  apply (handleLogin_wrong_credentials Demo2.trim (Demo2.typed " user" "password") H).
Defined.

(** A padded [user] passes the validation and fails the login. *)
Example handleLogin_padded_user :
  LoginScreen.loginErrorMessage
    (LoginScreen.screen
       (ui (snd (LoginScreen.handleLogin Demo2.trim (Demo2.typed " user" "password")))))
  = "Usuário ou senha inválidos.".
Proof. reflexivity. Qed.
End RunsMore.
